(** * Container statistics pipeline of dry ([docker/stats.go])

    A shallow embedding of the metrics calculator ([calculateCPUPercent],
    [calculateMemPercentage], [calculateBlockIO], [calculateNetwork],
    [buildStats]) and of the sampling goroutine started by
    [NewStatsChannel], with the properties the specification states about
    them.

    Conventions.
    - A Go [uint64] is a [Z] in [0, 2^64); unsigned subtraction and addition
      are written with their wrap-around ([U64.sub], [U64.add]).
    - A Go [float64] is a [spec_float] of the Standard Library's IEEE 754
      specification at binary64 precision ([prec = 53], [emax = 1024]);
      every operation rounds to nearest, ties to even, as Go's does.
    - A Go [map[string]V] is a [gmap string V]; a [range] loop over it visits
      the entries in an order Go leaves unspecified, so the loops below take
      the visiting order as an argument. *)

From Stdlib Require Import ZArith List Bool Lia Ascii String.
From Stdlib Require Import Floats.SpecFloat.
From stdpp Require Import gmap strings list fin_maps.

Local Open Scope Z_scope.

(** ** Unsigned 64-bit integers *)

Module U64.

Definition modulus : Z := 2 ^ 64.

Definition wrap (z : Z) : Z := z mod modulus.

Definition in_range (z : Z) : Prop := 0 <= z < modulus.

(** Go's [a - b] and [a + b] on [uint64]. *)
Definition sub (a b : Z) : Z := wrap (a - b).
Definition add (a b : Z) : Z := wrap (a + b).

End U64.

(** ** Binary64 floating point *)

Module F64.

Definition prec : Z := 53.
Definition emax : Z := 1024.

Definition t : Type := spec_float.

(** Conversion of an integer, [float64(n)]: a single rounding to nearest
    even. *)
Definition of_Z (n : Z) : t := binary_normalize prec emax n 0 false.

Definition zero : t := S754_zero false.
Definition hundred : t := of_Z 100.

Definition add (x y : t) : t := SFadd prec emax x y.
Definition mul (x y : t) : t := SFmul prec emax x y.
Definition div (x y : t) : t := SFdiv prec emax x y.
Definition ltb (x y : t) : bool := SFltb x y.

(** A strictly positive value: a positive finite number or [+Inf]. *)
Definition is_pos (x : t) : bool :=
  match x with
  | S754_finite false _ _ | S754_infinity false => true
  | _ => false
  end.

(** Left-to-right accumulation [acc += x] over a list, starting from [0.0]. *)
Definition sum (l : list t) : t := fold_left add l zero.

(** The smallest exponent of the format. *)
Definition emin : Z := SpecFloat.emin prec emax.

(** The representation of a positive integer of at most [prec] binary
    digits: the mantissa shifted up to [prec] digits. *)
Definition canon (n : positive) : t :=
  S754_finite false
    (Z.to_pos (Zpos n * 2 ^ (prec - Zpos (digits2_pos n))))
    (Zpos (digits2_pos n) - prec).

End F64.

(** ** The Docker API types the code reads (package [types]) *)

Module types.

(** [types.Container]: the fields the code reads. *)
Record Container := {
  ID : string;
  Names : list string;
  Command : string
}.

(** [types.ContainerProcessList], the result of a process-list query. *)
Record ContainerProcessList := {
  Processes : list (list string);
  Titles : list string
}.

(** [types.StatsJSON], one decoded snapshot. *)
Record CPUUsage := {
  TotalUsage : Z;
  PercpuUsage : list Z
}.

Record CPUStats := {
  CPUUsage_ : CPUUsage;
  SystemUsage : Z
}.

Record MemoryStats := {
  Usage : Z;
  Limit : Z
}.

Record BlkioStatEntry := {
  Op : string;
  Value : Z
}.

Record BlkioStats := {
  IoServiceBytesRecursive : list BlkioStatEntry
}.

Record NetworkStats := {
  RxBytes : Z;
  TxBytes : Z
}.

Record PidsStats := {
  Current : Z
}.

Record StatsJSON := {
  CPUStats_ : CPUStats;
  PreCPUStats : CPUStats;
  MemoryStats_ : MemoryStats;
  BlkioStats_ : BlkioStats;
  Networks : gmap string NetworkStats;
  PidsStats_ : PidsStats
}.

(** Every counter of a decoded snapshot is a [uint64]. *)
Record wf_stats (s : StatsJSON) : Prop := {
  wf_total : U64.in_range (TotalUsage (CPUUsage_ (CPUStats_ s)));
  wf_system : U64.in_range (SystemUsage (CPUStats_ s));
  wf_pre_total : U64.in_range (TotalUsage (CPUUsage_ (PreCPUStats s)));
  wf_pre_system : U64.in_range (SystemUsage (PreCPUStats s));
  wf_usage : U64.in_range (Usage (MemoryStats_ s));
  wf_limit : U64.in_range (Limit (MemoryStats_ s))
}.

End types.

Import types.

(** ** The metrics calculator *)

Definition calculateCPUPercent (stats : StatsJSON) : F64.t :=
  let previousCPU := TotalUsage (CPUUsage_ (PreCPUStats stats)) in
  let previousSystem := SystemUsage (PreCPUStats stats) in
  let cpuDelta :=
    F64.of_Z (U64.sub (TotalUsage (CPUUsage_ (CPUStats_ stats))) previousCPU) in
  let systemDelta :=
    F64.of_Z (U64.sub (SystemUsage (CPUStats_ stats)) previousSystem) in
  if F64.ltb F64.zero systemDelta && F64.ltb F64.zero cpuDelta then
    F64.mul
      (F64.mul (F64.div cpuDelta systemDelta)
         (F64.of_Z (Z.of_nat (length (PercpuUsage (CPUUsage_ (CPUStats_ stats)))))))
      F64.hundred
  else F64.zero.

Definition calculateMemPercentage (stats : StatsJSON) : F64.t :=
  if negb (Limit (MemoryStats_ stats) =? 0) then
    F64.mul
      (F64.div (F64.of_Z (Usage (MemoryStats_ stats)))
         (F64.of_Z (Limit (MemoryStats_ stats))))
      F64.hundred
  else F64.zero.

(** The derived record ([docker.Stats]); [Stats_] and [ProcessList] are
    pointers in the source, [None] is [nil]. *)
Record Stats := {
  CID : string;
  Command : string;
  CPUPercentage : F64.t;
  Memory : F64.t;
  MemoryLimit : F64.t;
  MemoryPercentage : F64.t;
  NetworkRx : F64.t;
  NetworkTx : F64.t;
  BlockRead : F64.t;
  BlockWrite : F64.t;
  PidsCurrent : Z;
  Stats_ : option StatsJSON;
  ProcessList : option ContainerProcessList
}.

(** Field assignments [s.F = v]. *)
Definition set_CPUPercentage (v : F64.t) (s : Stats) : Stats :=
  {| CID := CID s; Command := Command s; CPUPercentage := v;
     Memory := Memory s; MemoryLimit := MemoryLimit s;
     MemoryPercentage := MemoryPercentage s; NetworkRx := NetworkRx s;
     NetworkTx := NetworkTx s; BlockRead := BlockRead s;
     BlockWrite := BlockWrite s; PidsCurrent := PidsCurrent s;
     Stats_ := Stats_ s; ProcessList := ProcessList s |}.

Definition set_Memory (v : F64.t) (s : Stats) : Stats :=
  {| CID := CID s; Command := Command s; CPUPercentage := CPUPercentage s;
     Memory := v; MemoryLimit := MemoryLimit s;
     MemoryPercentage := MemoryPercentage s; NetworkRx := NetworkRx s;
     NetworkTx := NetworkTx s; BlockRead := BlockRead s;
     BlockWrite := BlockWrite s; PidsCurrent := PidsCurrent s;
     Stats_ := Stats_ s; ProcessList := ProcessList s |}.

Definition set_MemoryLimit (v : F64.t) (s : Stats) : Stats :=
  {| CID := CID s; Command := Command s; CPUPercentage := CPUPercentage s;
     Memory := Memory s; MemoryLimit := v;
     MemoryPercentage := MemoryPercentage s; NetworkRx := NetworkRx s;
     NetworkTx := NetworkTx s; BlockRead := BlockRead s;
     BlockWrite := BlockWrite s; PidsCurrent := PidsCurrent s;
     Stats_ := Stats_ s; ProcessList := ProcessList s |}.

Definition set_MemoryPercentage (v : F64.t) (s : Stats) : Stats :=
  {| CID := CID s; Command := Command s; CPUPercentage := CPUPercentage s;
     Memory := Memory s; MemoryLimit := MemoryLimit s;
     MemoryPercentage := v; NetworkRx := NetworkRx s;
     NetworkTx := NetworkTx s; BlockRead := BlockRead s;
     BlockWrite := BlockWrite s; PidsCurrent := PidsCurrent s;
     Stats_ := Stats_ s; ProcessList := ProcessList s |}.

Definition set_Network (v : F64.t * F64.t) (s : Stats) : Stats :=
  {| CID := CID s; Command := Command s; CPUPercentage := CPUPercentage s;
     Memory := Memory s; MemoryLimit := MemoryLimit s;
     MemoryPercentage := MemoryPercentage s; NetworkRx := fst v;
     NetworkTx := snd v; BlockRead := BlockRead s;
     BlockWrite := BlockWrite s; PidsCurrent := PidsCurrent s;
     Stats_ := Stats_ s; ProcessList := ProcessList s |}.

Definition set_BlockRead (v : F64.t) (s : Stats) : Stats :=
  {| CID := CID s; Command := Command s; CPUPercentage := CPUPercentage s;
     Memory := Memory s; MemoryLimit := MemoryLimit s;
     MemoryPercentage := MemoryPercentage s; NetworkRx := NetworkRx s;
     NetworkTx := NetworkTx s; BlockRead := v;
     BlockWrite := BlockWrite s; PidsCurrent := PidsCurrent s;
     Stats_ := Stats_ s; ProcessList := ProcessList s |}.

Definition set_BlockWrite (v : F64.t) (s : Stats) : Stats :=
  {| CID := CID s; Command := Command s; CPUPercentage := CPUPercentage s;
     Memory := Memory s; MemoryLimit := MemoryLimit s;
     MemoryPercentage := MemoryPercentage s; NetworkRx := NetworkRx s;
     NetworkTx := NetworkTx s; BlockRead := BlockRead s;
     BlockWrite := v; PidsCurrent := PidsCurrent s;
     Stats_ := Stats_ s; ProcessList := ProcessList s |}.

Definition set_PidsCurrent (v : Z) (s : Stats) : Stats :=
  {| CID := CID s; Command := Command s; CPUPercentage := CPUPercentage s;
     Memory := Memory s; MemoryLimit := MemoryLimit s;
     MemoryPercentage := MemoryPercentage s; NetworkRx := NetworkRx s;
     NetworkTx := NetworkTx s; BlockRead := BlockRead s;
     BlockWrite := BlockWrite s; PidsCurrent := v;
     Stats_ := Stats_ s; ProcessList := ProcessList s |}.

(** One iteration of the loop of [calculateNetwork]. *)
Definition network_step (acc : F64.t * F64.t) (kv : string * NetworkStats)
  : F64.t * F64.t :=
  (F64.add (fst acc) (F64.of_Z (RxBytes (snd kv))),
   F64.add (snd acc) (F64.of_Z (TxBytes (snd kv)))).

(** [calculateNetwork]: [visit] is the order in which [range networks]
    yields the entries of [stats.Networks]. *)
Definition calculateNetwork (visit : list (string * NetworkStats))
  : F64.t * F64.t :=
  fold_left network_step visit (F64.zero, F64.zero).

(** A possible visiting order of a map. *)
Definition range_of (m : gmap string NetworkStats)
  (visit : list (string * NetworkStats)) : Prop :=
  visit ≡ₚ map_to_list m.

#[global] Instance NetworkStats_eq_dec : EqDecision NetworkStats.
Proof. solve_decision. Defined.

#[global] Instance range_of_dec (m : gmap string NetworkStats)
  (visit : list (string * NetworkStats)) : Decision (range_of m visit).
Proof. unfold range_of. apply _. Defined.

(** The two counters of a visited entry. *)
Definition rx_of (kv : string * NetworkStats) : Z := RxBytes (snd kv).
Definition tx_of (kv : string * NetworkStats) : Z := TxBytes (snd kv).

(** Sum of a list of integers, without wrap-around. *)
Definition Zsum (l : list Z) : Z := foldr Z.add 0 l.

(** Exact integer totals over the interfaces of a map. *)
Definition total_rx (m : gmap string NetworkStats) : Z :=
  Zsum (map (fun kv => RxBytes (snd kv)) (map_to_list m)).
Definition total_tx (m : gmap string NetworkStats) : Z :=
  Zsum (map (fun kv => TxBytes (snd kv)) (map_to_list m)).

Section Calculator.

(** [strings.ToLower] of the Go library and [TruncateID] of package
    [docker] are not part of the file. *)
Variable ToLower : string -> string.
Variable TruncateID : string -> string.

(** One iteration of the loop of [calculateBlockIO]. *)
Definition blockio_step (acc : Z * Z) (bioEntry : BlkioStatEntry) : Z * Z :=
  let '(blkRead, blkWrite) := acc in
  let op := ToLower (Op bioEntry) in
  if String.eqb op "read" then (U64.add blkRead (Value bioEntry), blkWrite)
  else if String.eqb op "write" then (blkRead, U64.add blkWrite (Value bioEntry))
  else (blkRead, blkWrite).

Definition calculateBlockIO (stats : StatsJSON) : Z * Z :=
  fold_left blockio_step (IoServiceBytesRecursive (BlkioStats_ stats)) (0, 0).

(** Exact total of the byte values of the entries whose label lowercases
    to [label]. *)
Definition op_total (label : string) (entries : list BlkioStatEntry) : Z :=
  Zsum (map Value (filter (fun e => ToLower (Op e) = label) entries)).

(** The record as it stands after line 85, when every derived field but
    [PidsCurrent] has been assigned once; [visit1] is the order of that
    call's [range]. *)
Definition buildStats_first (container : Container) (stats : StatsJSON)
  (topResult : option ContainerProcessList)
  (visit1 : list (string * NetworkStats)) : Stats :=
  let s := {| CID := TruncateID (ID container);
              Command := types.Command container;
              CPUPercentage := F64.zero; Memory := F64.zero;
              MemoryLimit := F64.zero; MemoryPercentage := F64.zero;
              NetworkRx := F64.zero; NetworkTx := F64.zero;
              BlockRead := F64.zero; BlockWrite := F64.zero;
              PidsCurrent := 0;
              Stats_ := Some stats; ProcessList := topResult |} in
  let s := set_CPUPercentage (calculateCPUPercent stats) s in
  let '(br, bw) := calculateBlockIO stats in
  let s := set_BlockRead (F64.of_Z br) s in
  let s := set_BlockWrite (F64.of_Z bw) s in
  let s := set_Memory (F64.of_Z (Usage (MemoryStats_ stats))) s in
  let s := set_MemoryLimit (F64.of_Z (Limit (MemoryStats_ stats))) s in
  let s := set_MemoryPercentage (calculateMemPercentage stats) s in
  set_Network (calculateNetwork visit1) s.

(** [buildStats]; [visit1] and [visit2] are the orders of its two
    [range networks] loops. *)
Definition buildStats (container : Container) (stats : StatsJSON)
  (topResult : option ContainerProcessList)
  (visit1 visit2 : list (string * NetworkStats)) : Stats :=
  let s := buildStats_first container stats topResult visit1 in
  let memPercent :=
    if negb (Limit (MemoryStats_ stats) =? 0) then
      F64.mul
        (F64.div (F64.of_Z (Usage (MemoryStats_ stats)))
           (F64.of_Z (Limit (MemoryStats_ stats))))
        F64.hundred
    else F64.zero in
  let cpuPercent := calculateCPUPercent stats in
  let '(blkRead, blkWrite) := calculateBlockIO stats in
  let s := set_CPUPercentage cpuPercent s in
  let s := set_Memory (F64.of_Z (Usage (MemoryStats_ stats))) s in
  let s := set_MemoryLimit (F64.of_Z (Limit (MemoryStats_ stats))) s in
  let s := set_MemoryPercentage memPercent s in
  let s := set_Network (calculateNetwork visit2) s in
  let s := set_BlockRead (F64.of_Z blkRead) s in
  let s := set_BlockWrite (F64.of_Z blkWrite) s in
  set_PidsCurrent (Current (PidsStats_ stats)) s.

(** What one pass over the snapshot computes. *)
Definition single_pass (container : Container) (stats : StatsJSON)
  (topResult : option ContainerProcessList)
  (visit : list (string * NetworkStats)) : Stats :=
  {| CID := TruncateID (ID container);
     Command := types.Command container;
     CPUPercentage := calculateCPUPercent stats;
     Memory := F64.of_Z (Usage (MemoryStats_ stats));
     MemoryLimit := F64.of_Z (Limit (MemoryStats_ stats));
     MemoryPercentage := calculateMemPercentage stats;
     NetworkRx := fst (calculateNetwork visit);
     NetworkTx := snd (calculateNetwork visit);
     BlockRead := F64.of_Z (fst (calculateBlockIO stats));
     BlockWrite := F64.of_Z (snd (calculateBlockIO stats));
     PidsCurrent := Current (PidsStats_ stats);
     Stats_ := Some stats; ProcessList := topResult |}.

End Calculator.

(** ** The sampling goroutine of [NewStatsChannel]

    The goroutine is sequential code that blocks on its environment: on the
    client call that opens the stream, on [dec.Decode], on the [select], on
    [daemon.Top] and on the unbuffered send.  It is modelled as a labelled
    transition system: a state records where the goroutine is blocked, a
    label is the environment event that unblocks it there, and [step] is
    the code that runs until the next blocking point.  An event that is not
    awaited in a state is not enabled there ([None]); the event of
    [daemon.Top] returning also carries the orders in which the two
    [range] loops of [buildStats] then visit the network map, and is
    enabled for orders of that map only. *)

(** What the goroutine does to the outside, in order. *)
Inductive action :=
  | ActSend (x : Stats)      (* stats <- x, received by the consumer *)
  | ActCancel                (* cancel() *)
  | ActCloseStats            (* close(stats) *)
  | ActCloseBody.            (* responseBody.Close() *)

Inductive DecodeResult :=
  | DecErr                                 (* error or EOF *)
  | DecOk (statsJSON : option StatsJSON).  (* the pointer after decoding *)

Inductive TopResult :=
  | TopOk (top : ContainerProcessList)
  | TopErr.

(** Modelled from the spec: [daemon.Top] is declared outside the file; the
    spec has it return "an optional current process list" that "may fail",
    so a failed query hands back no list, which for the struct it returns
    is the zero value. *)
Definition emptyProcessList : ContainerProcessList :=
  {| Processes := []; Titles := [] |}.

Definition top_value (r : TopResult) : ContainerProcessList :=
  match r with
  | TopOk top => top
  | TopErr => emptyProcessList
  end.

Inductive event :=
  | EvOpen (body_nil : bool) (err : bool)  (* cli.ContainerStats returns *)
  | EvDecode (r : DecodeResult)            (* dec.Decode returns *)
  | EvTick                                 (* select takes <-timer.C *)
  | EvCtxDone                              (* select takes <-ctx.Done() *)
  | EvDone                                 (* select takes <-done *)
  | EvTop (r : TopResult)                  (* daemon.Top returns; the two *)
      (visit1 visit2 : list (string * NetworkStats)) (* ranges in buildStats *)
  | EvRecv.                                (* the consumer receives *)

Inductive pc :=
  | PcOpen (name : string)         (* line 30, in cli.ContainerStats *)
  | PcFirstDecode                  (* line 41, in dec.Decode *)
  | PcSelect                       (* line 46, at the select *)
  | PcTickDecode                   (* line 48, in dec.Decode *)
  | PcTop (statsJSON : StatsJSON)  (* line 52, in daemon.Top *)
  | PcSend (x : Stats)             (* line 53, sending on stats *)
  | PcExited                       (* returned, deferred calls done *)
  | PcPanicked.                    (* run-time panic *)

Record gstate := {
  at_pc : pc;
  defers : list action;   (* deferred calls, last registered first *)
  trace : list action     (* actions so far, oldest first *)
}.

(** [return]: the deferred calls run, last registered first. *)
Definition do_return (st : gstate) : gstate :=
  {| at_pc := PcExited; defers := []; trace := trace st ++ defers st |}.

Definition goto (p : pc) (st : gstate) : gstate :=
  {| at_pc := p; defers := defers st; trace := trace st |}.

Definition emit (a : action) (st : gstate) : gstate :=
  {| at_pc := at_pc st; defers := defers st; trace := trace st ++ [a] |}.

Definition push_defer (a : action) (st : gstate) : gstate :=
  {| at_pc := at_pc st; defers := a :: defers st; trace := trace st |}.

Definition panic (st : gstate) : gstate :=
  {| at_pc := PcPanicked; defers := defers st; trace := trace st |}.

(** The goroutine up to its first blocking point: [container.Names[0]] is
    evaluated for the client call and panics on an empty slice. *)
Definition goroutine_init (container : Container) : gstate :=
  match Names container with
  | [] => {| at_pc := PcPanicked; defers := []; trace := [] |}
  | name :: _ => {| at_pc := PcOpen name; defers := []; trace := [] |}
  end.

(** The orders in which the two [range] loops of one [buildStats] call
    can visit the network map of the snapshot. *)
Definition visits_ok (statsJSON : StatsJSON)
  (visit1 visit2 : list (string * NetworkStats)) : bool :=
  bool_decide (range_of (Networks statsJSON) visit1) &&
  bool_decide (range_of (Networks statsJSON) visit2).

Section Goroutine.

Variable ToLower : string -> string.
Variable TruncateID : string -> string.
Variable container : Container.

Definition step (st : gstate) (ev : event) : option gstate :=
  match at_pc st, ev with
  | PcOpen _, EvOpen body_nil err =>
      (* defer responseBody.Close(): a method of a nil interface value *)
      if body_nil then Some (panic st)
      else
        let st := push_defer ActCloseBody st in
        let st := push_defer ActCloseStats st in
        if err then Some (do_return st)
        else Some (goto PcFirstDecode st)
  | PcFirstDecode, EvDecode DecErr => Some (do_return st)
  | PcFirstDecode, EvDecode (DecOk _) => Some (goto PcSelect st)
  | PcSelect, EvTick => Some (goto PcTickDecode st)
  | PcSelect, EvCtxDone => Some (do_return st)
  | PcSelect, EvDone => Some (do_return (emit ActCancel st))
  | PcTickDecode, EvDecode DecErr => Some (do_return st)
  | PcTickDecode, EvDecode (DecOk None) => Some (goto PcSelect st)
  | PcTickDecode, EvDecode (DecOk (Some statsJSON)) =>
      Some (goto (PcTop statsJSON) st)
  | PcTop statsJSON, EvTop r visit1 visit2 =>
      (* each of the two ranges of buildStats visits the snapshot's map *)
      if visits_ok statsJSON visit1 visit2 then
        Some (goto (PcSend (buildStats ToLower TruncateID container statsJSON
                              (Some (top_value r)) visit1 visit2)) st)
      else None
  | PcSend x, EvRecv => Some (goto PcSelect (emit (ActSend x) st))
  | _, _ => None
  end.

(** A run: the events of a schedule, one after the other. *)
Fixpoint run (st : gstate) (evs : list event) : option gstate :=
  match evs with
  | [] => Some st
  | ev :: evs' =>
      match step st ev with
      | Some st' => run st' evs'
      | None => None
      end
  end.

End Goroutine.

(** The ways out of the loop that the specification lists: a decode error
    or EOF, a cancellation request on [done], the context ending. *)
Definition exit_event (p : pc) (ev : event) : bool :=
  match p, ev with
  | (PcFirstDecode | PcTickDecode), EvDecode DecErr => true
  | PcSelect, (EvDone | EvCtxDone) => true
  | _, _ => false
  end.

Definition running (p : pc) : bool :=
  match p with
  | PcFirstDecode | PcSelect | PcTickDecode | PcTop _ | PcSend _ => true
  | _ => false
  end.

Definition decode_in_flight (p : pc) : bool :=
  match p with
  | PcFirstDecode | PcTickDecode => true
  | _ => false
  end.

Definition is_close_stats (a : action) : bool :=
  match a with ActCloseStats => true | _ => false end.
Definition is_close_body (a : action) : bool :=
  match a with ActCloseBody => true | _ => false end.
Definition is_cancel (a : action) : bool :=
  match a with ActCancel => true | _ => false end.

Definition count (f : action -> bool) (l : list action) : nat :=
  length (filter (fun a => f a = true) l).

(** A record made by [buildStats] for this container from a decoded
    snapshot and the outcome of a process-list query. *)
Definition is_built (ToLower TruncateID : string -> string)
  (container : Container) (x : Stats) : Prop :=
  exists statsJSON r visit1 visit2,
    x = buildStats ToLower TruncateID container statsJSON
          (Some (top_value r)) visit1 visit2.

(** What holds of the goroutine wherever it is blocked: the two deferred
    calls are pending while it runs and have run once when it has
    returned, and only built records are sent. *)
Definition goroutine_inv (ToLower TruncateID : string -> string)
  (container : Container) (st : gstate) : Prop :=
  (forall x, In (ActSend x) (trace st) -> is_built ToLower TruncateID container x) /\
  match at_pc st with
  | PcOpen _ => defers st = [] /\ trace st = []
  | PcPanicked =>
      count is_close_stats (trace st) = 0%nat /\
      count is_close_body (trace st) = 0%nat
  | PcExited =>
      count is_close_stats (trace st) = 1%nat /\
      count is_close_body (trace st) = 1%nat
  | PcSend x =>
      is_built ToLower TruncateID container x /\
      defers st = [ActCloseStats; ActCloseBody] /\
      count is_close_stats (trace st) = 0%nat /\
      count is_close_body (trace st) = 0%nat
  | _ =>
      defers st = [ActCloseStats; ActCloseBody] /\
      count is_close_stats (trace st) = 0%nat /\
      count is_close_body (trace st) = 0%nat
  end.

(** ** [NewStatsChannel] *)

Module StatsChannel.
Record t := {
  Container : types.Container;
  Stats : option nat;     (* <-chan *Stats, [None] is nil *)
  Done : option nat       (* chan<- struct{}, [None] is nil *)
}.
End StatsChannel.

(** The part of the Go run time the function touches: the channels made so
    far and the goroutines started, each with the channels it serves. *)
Record runtime := {
  next_chan : nat;
  goroutines : list (nat * nat * gstate)
}.

Section NewStatsChannel.

(** [IsContainerRunning] of package [docker] is not part of the file. *)
Variable IsContainerRunning : Container -> bool.

Definition NewStatsChannel (container : Container) (rt : runtime)
  : StatsChannel.t * runtime :=
  if IsContainerRunning container then
    let stats := next_chan rt in
    let done := S (next_chan rt) in
    ({| StatsChannel.Container := container;
        StatsChannel.Stats := Some stats;
        StatsChannel.Done := Some done |},
     {| next_chan := S (S (next_chan rt));
        goroutines := (stats, done, goroutine_init container) :: goroutines rt |})
  else
    ({| StatsChannel.Container := container;
        StatsChannel.Stats := None;
        StatsChannel.Done := None |}, rt).

End NewStatsChannel.

(** ** Concrete inputs *)

(** [strings.ToLower] on labels made of ASCII characters: the letters [A]
    to [Z] move to [a] to [z], every other byte stays. *)
Definition ascii_lower (c : ascii) : ascii :=
  let n := N_of_ascii c in
  if ((65 <=? n) && (n <=? 90))%N then ascii_of_N (n + 32) else c.

Fixpoint ascii_to_lower (s : string) : string :=
  match s with
  | EmptyString => EmptyString
  | String c s' => String (ascii_lower c) (ascii_to_lower s')
  end.

Definition mkStats (total system pre_total pre_system : Z) (percpu : list Z)
  (usage limit : Z) (blkio : list BlkioStatEntry)
  (networks : gmap string NetworkStats) (pids : Z) : StatsJSON :=
  {| CPUStats_ := {| CPUUsage_ := {| TotalUsage := total; PercpuUsage := percpu |};
                     SystemUsage := system |};
     PreCPUStats := {| CPUUsage_ := {| TotalUsage := pre_total; PercpuUsage := [] |};
                       SystemUsage := pre_system |};
     MemoryStats_ := {| Usage := usage; Limit := limit |};
     BlkioStats_ := {| IoServiceBytesRecursive := blkio |};
     Networks := networks;
     PidsStats_ := {| Current := pids |} |}.

(** The snapshot of the specification's examples: two cores, CPU 100 to
    200 of system 800 to 1000, memory 500 of 1000, three block I/O entries
    and two interfaces. *)
Definition example_stats : StatsJSON :=
  mkStats 200 1000 100 800 [100; 100] 500 1000
    [ {| Op := "Read"; Value := 10 |};
      {| Op := "WRITE"; Value := 5 |};
      {| Op := "Sync"; Value := 1 |} ]
    (<["eth0" := {| RxBytes := 100; TxBytes := 50 |}]>
       (<["eth1" := {| RxBytes := 20; TxBytes := 10 |}]> ∅))
    3.

(** The same snapshot with the container's CPU counter gone backwards
    between the two readings, from 200 to 100. *)
Definition backwards_stats : StatsJSON :=
  mkStats 100 1000 200 800 [100; 100] 500 1000 [] ∅ 3.

(** Two read entries of [2^63] bytes each. *)
Definition overflow_stats : StatsJSON :=
  mkStats 200 1000 100 800 [100; 100] 500 1000
    [ {| Op := "Read"; Value := 2 ^ 63 |};
      {| Op := "read"; Value := 2 ^ 63 |} ]
    ∅ 3.

Definition example_container : Container :=
  {| ID := "0123456789abcdef"; Names := ["/web"]; types.Command := "nginx" |}.

Definition empty_runtime : runtime := {| next_chan := 0; goroutines := [] |}.

(** The goroutine in the decode of a tick, nothing sent yet. *)
Definition tick_state : gstate :=
  {| at_pc := PcTickDecode; defers := [ActCloseStats; ActCloseBody];
     trace := [] |}.

(** ** Counting in runs of the goroutine *)

Definition is_send (a : action) : bool :=
  match a with ActSend _ => true | _ => false end.

Definition is_tick (ev : event) : bool :=
  match ev with EvTick => true | _ => false end.
Definition is_recv (ev : event) : bool :=
  match ev with EvRecv => true | _ => false end.
Definition is_done (ev : event) : bool :=
  match ev with EvDone => true | _ => false end.

(** The deferred calls, with [cancel()] before them when the [select]
    took [<-done]. *)
Definition closing (on_done : bool) : list action :=
  (if on_done then [ActCancel] else []) ++ [ActCloseStats; ActCloseBody].

(** The last event of a schedule is the [select] taking [<-done]. *)
Definition ended_on_done (evs : list event) : bool :=
  match last evs with
  | Some ev => is_done ev
  | None => false
  end.

Definition count_ev (f : event -> bool) (l : list event) : nat :=
  length (filter (fun ev => f ev = true) l).

(** The goroutine is inside the body of the [timer.C] branch. *)
Definition in_tick (p : pc) : bool :=
  match p with
  | PcTickDecode | PcTop _ | PcSend _ => true
  | _ => false
  end.

(** One when a record of the current tick is still to be sent. *)
Definition pending (p : pc) : nat := if in_tick p then 1%nat else 0%nat.

(** A run of the goroutine for the examples: the stream opens, a first
    snapshot is decoded, one tick delivers a record though the process-list
    query fails, and the consumer asks to stop. *)
Definition example_run : list event :=
  [EvOpen false false; EvDecode (DecOk (Some example_stats)); EvTick;
   EvDecode (DecOk (Some example_stats));
   EvTop TopErr (map_to_list (Networks example_stats))
     (map_to_list (Networks example_stats));
   EvRecv; EvDone].

(** The snapshot of the examples with other block I/O entries. *)
Definition stats_with_blkio (blkio : list BlkioStatEntry) : StatsJSON :=
  mkStats 200 1000 100 800 [100; 100] 500 1000 blkio ∅ 3.

(** ** Go's [int] and slices *)

(** [int] is taken at 64 bits, two's complement. *)
Module I64.

Definition min_int : Z := - 2 ^ 63.
Definition max_int : Z := 2 ^ 63 - 1.

Definition in_range (z : Z) : Prop := min_int <= z <= max_int.

Definition wrap (z : Z) : Z := (z + 2 ^ 63) mod 2 ^ 64 - 2 ^ 63.

Definition add (a b : Z) : Z := wrap (a + b).
Definition sub (a b : Z) : Z := wrap (a - b).

End I64.

(** A slice that starts at the head of its backing array: the elements
    within its length and its capacity. The slots of the array beyond the
    length hold the zero value; for the rows of a grid, which only ever
    come out of [append] or an empty literal, that is so. *)
Module Slice.

Record t (A : Type) := {
  elems : list A;
  cap : nat
}.
Arguments elems {A} _.
Arguments cap {A} _.

Definition len {A} (s : t A) : Z := Z.of_nat (length (elems s)).

(** [nil] and the empty literal. *)
Definition empty {A} : t A := {| elems := []; cap := 0 |}.

(** The slots of the backing array up to the capacity. *)
Definition slots {A} (zero : A) (s : t A) : list A :=
  elems s ++ replicate (cap s - length (elems s)) zero.

(** [s[low:high]]: the run-time check is against the capacity; [None] is
    the panic "slice bounds out of range". *)
Definition reslice {A} (zero : A) (s : t A) (low high : Z)
  : option (list A) :=
  if (0 <=? low) && (low <=? high) && (high <=? Z.of_nat (cap s)) then
    Some (take (Z.to_nat (high - low)) (drop (Z.to_nat low) (slots zero s)))
  else None.

(** [append(s, x)], with [grow] the capacity the run time picks when the
    array is full; it is never below the new length. *)
Definition append {A} (grow : nat -> nat) (s : t A) (x : A) : t A :=
  if (length (elems s) <? cap s)%nat then
    {| elems := elems s ++ [x]; cap := cap s |}
  else
    {| elems := elems s ++ [x];
       cap := Nat.max (S (length (elems s))) (grow (cap s)) |}.

End Slice.

(** ** The grid of rows ([ui/termui/grid.go]) *)

(** [ui.GridBufferer], the interface of a row, over the state of the
    object behind the pointer. *)
Module ui.

Class GridBufferer (R : Type) := {
  GetHeight : R -> Z;
  SetX : Z -> R -> R;
  SetY : Z -> R -> R;
  SetWidth : Z -> R -> R
}.

(** Moving a row does not change its height. *)
Class StableHeight (R : Type) `{GridBufferer R} := {
  GetHeight_SetY : forall y r, GetHeight (SetY y r) = GetHeight r;
  GetHeight_SetX : forall x r, GetHeight (SetX x r) = GetHeight r
}.

End ui.

Module termui.

(** A row is an interface value: [Some p] for the object behind the
    pointer [p], [None] for nil. *)
Record Grid := {
  rows : Slice.t (option nat);
  X : Z;
  Y : Z;
  Height : Z;
  Width : Z;
  Offset : Z
}.

(** What the Go types guarantee of a grid: the length of the slice is
    within its capacity, which is an [int], as are the fields read in
    arithmetic. *)
Definition wf (g : Grid) : Prop :=
  (length (Slice.elems (rows g)) <= Slice.cap (rows g))%nat /\
  Z.of_nat (Slice.cap (rows g)) <= I64.max_int /\
  I64.in_range (Height g) /\ I64.in_range (Offset g) /\ I64.in_range (Y g).

Definition NewGrid (x y height width : Z) : Grid :=
  {| rows := Slice.empty; X := x; Y := y; Height := height; Width := width;
     Offset := 0 |}.

Definition set_rows (v : Slice.t (option nat)) (g : Grid) : Grid :=
  {| rows := v; X := X g; Y := Y g; Height := Height g; Width := Width g;
     Offset := Offset g |}.

Definition set_Offset (v : Z) (g : Grid) : Grid :=
  {| rows := rows g; X := X g; Y := Y g; Height := Height g; Width := Width g;
     Offset := v |}.

Definition Clear (g : Grid) : Grid := set_rows Slice.empty g.

Definition GetHeight (g : Grid) : Z := Height g.

Definition SetX (x : Z) (g : Grid) : Grid :=
  {| rows := rows g; X := x; Y := Y g; Height := Height g; Width := Width g;
     Offset := Offset g |}.

Definition SetY (y : Z) (g : Grid) : Grid :=
  {| rows := rows g; X := X g; Y := y; Height := Height g; Width := Width g;
     Offset := Offset g |}.

Definition SetWidth (w : Z) (g : Grid) : Grid :=
  {| rows := rows g; X := X g; Y := Y g; Height := Height g; Width := w;
     Offset := Offset g |}.

Definition AddRows (grow : nat -> nat) (new : list (option nat)) (g : Grid)
  : Grid :=
  fold_left (fun g r => set_rows (Slice.append grow (rows g) r) g) new g.

(** [pageRows]: the elements of the slice it returns, [None] when the
    slice expression panics. *)
Definition pageRows (g : Grid) : option (list (option nat)) :=
  let availableLines := I64.sub (GetHeight g) 1 in
  if Slice.len (rows g) <? availableLines then
    Some (Slice.elems (rows g))
  else
    let cursorPos := Offset g in
    let '(start, end_) :=
      if availableLines <? cursorPos then
        (I64.sub (I64.add cursorPos 1) availableLines, I64.add cursorPos 1)
      else if cursorPos =? availableLines then
        (1, I64.add availableLines 1)
      else (0, availableLines) in
    Slice.reslice None (rows g) start end_.

(** [Buffer]: the rows whose buffers are merged, in order; [None] when
    [pageRows] panics or an element of the page is a nil interface, on
    which the call [r.Buffer()] panics. *)
Definition Buffer (g : Grid) : option (list nat) :=
  match pageRows g with
  | None => None
  | Some page => mapM (fun slot : option nat => slot) page
  end.

Section Align.

Context {R : Type} `{ui.GridBufferer R}.

(** One iteration of the loop of [Align] on the row behind [p]; [heap]
    maps a pointer to the state of its object. *)
Definition align_row (g : Grid) (y : Z) (p : nat) (heap : gmap nat R)
  : option (Z * gmap nat R) :=
  match heap !! p with
  | None => None
  | Some r =>
      let r := ui.SetY y r in
      let r := ui.SetX (X g) r in
      let y := I64.add y (ui.GetHeight r) in
      let r := ui.SetWidth (Width g) r in
      Some (y, <[p := r]> heap)
  end.

Fixpoint align_loop (g : Grid) (y : Z) (page : list (option nat))
  (heap : gmap nat R) : option (gmap nat R) :=
  match page with
  | [] => Some heap
  | None :: _ => None
  | Some p :: page' =>
      match align_row g y p heap with
      | None => None
      | Some (y', heap') => align_loop g y' page' heap'
      end
  end.

(** The heights of the rows behind the pointers [ps]. *)
Definition row_heights (heap : gmap nat R) (ps : list nat) : list Z :=
  map (fun p => from_option ui.GetHeight 0 (heap !! p)) ps.

Definition Align (g : Grid) (heap : gmap nat R)
  : option (Grid * gmap nat R) :=
  let g := if Slice.len (rows g) <=? Offset g then set_Offset 0 g else g in
  match pageRows g with
  | None => None
  | Some page =>
      match align_loop g (Y g) page heap with
      | None => None
      | Some heap' => Some (g, heap')
      end
  end.

End Align.

End termui.

(** ** Conversion of a [float64] to [int] *)

(** The integer part of a number, towards zero; none for infinities and
    NaN. *)
Definition F64_trunc (x : F64.t) : option Z :=
  match x with
  | S754_zero _ => Some 0
  | S754_finite s m e =>
      let v := if 0 <=? e then Zpos m * 2 ^ e else Zpos m / 2 ^ (- e) in
      Some (if s then - v else v)
  | _ => None
  end.

(** [int(x)]: the integer part when it is an [int]; otherwise Go leaves
    the result to the implementation, here [unrepresentable x], some
    [int]. *)
Definition float_to_int (unrepresentable : F64.t -> Z) (x : F64.t) : Z :=
  match F64_trunc x with
  | Some z =>
      if (I64.min_int <=? z) && (z <=? I64.max_int) then z
      else I64.wrap (unrepresentable x)
  | None => I64.wrap (unrepresentable x)
  end.

(** ** The row of a container ([appui/container_stats_row.go]) and its
       text column ([ui/termui/par_column.go]) *)

Module appui.

(** The [Memory] of a record of statistics; the row has a field of that
    name too. *)
Local Abbreviation stat_Memory := Memory.

(** [drytermui.ParColumn], a [termui.Par]: the fields the code writes. *)
Record ParColumn := {
  Text : string;
  Bg : Z;
  TextBgColor : Z;
  TextFgColor : Z;
  Border : bool
}.

(** [drytermui.GaugeColumn], declared outside the files: the fields the
    code writes. *)
Record GaugeColumn := {
  Label : string;
  Percent : Z;
  BarColor : Z;
  PercentColor : Z
}.

(** What the files call in other packages and in files that are not
    given: formatting, the colours, widget constructors, the layout
    helpers of package [appui] and the implementation's conversion of a
    [float64] that is not an [int]. *)
Record Env := {
  BytesSize : F64.t -> string;          (* units.BytesSize *)
  fmtPercent : F64.t -> string;         (* fmt.Sprintf("%.2f%%", val) *)
  Itoa : Z -> string;                   (* strconv.Itoa *)
  unrepresentable : F64.t -> Z;
  Color23 : Z;
  Color131 : Z;
  Color161 : Z;
  Color244 : Z;
  themeBg : Z;                          (* DryTheme.Bg *)
  themeFg : Z;                          (* DryTheme.Fg *)
  NewPar : string -> ParColumn;         (* termui.NewPar *)
  NewThemedGaugeColumn : GaugeColumn;   (* NewThemedGaugeColumn(DryTheme) *)
  GaugeReset : GaugeColumn -> GaugeColumn;
  formatNames : Container -> string;    (* cf.Names() *)
  formatID : Container -> string;       (* cf.ID() *)
  calcItemWidth : Z -> Z -> Z;
  columnSpacing : Z;
  IsContainerRunning : Container -> bool
}.

(** *** The text column *)

Definition NewParColumn (env : Env) (s : string) : ParColumn :=
  let p := NewPar env s in
  {| Text := Text p; Bg := Bg p; TextBgColor := TextBgColor p;
     TextFgColor := TextFgColor p; Border := false |}.

Definition NewThemedParColumn (env : Env) (s : string) : ParColumn :=
  let p := NewParColumn env s in
  {| Text := Text p; Bg := themeBg env; TextBgColor := themeBg env;
     TextFgColor := themeFg env; Border := Border p |}.

Definition Content (s : string) (w : ParColumn) : ParColumn :=
  {| Text := s; Bg := Bg w; TextBgColor := TextBgColor w;
     TextFgColor := TextFgColor w; Border := Border w |}.

Definition ParReset (w : ParColumn) : ParColumn := Content "-" w.

Definition set_TextFgColor (c : Z) (w : ParColumn) : ParColumn :=
  {| Text := Text w; Bg := Bg w; TextBgColor := TextBgColor w;
     TextFgColor := c; Border := Border w |}.

(** *** The row *)

(** The widgets of a row, which its [columns] slice lists by pointer. *)
Inductive column :=
  | ColID | ColName | ColCPU | ColMemory | ColNet | ColBlock | ColPids.

(** A positioning call on a widget; these methods belong to [termui]. *)
Inductive call :=
  | CallSetX (x : Z)
  | CallSetY (y : Z)
  | CallSetWidth (w : Z).

(** The row; [calls] is the log of the positioning calls made on its
    widgets, oldest first. *)
Record ContainerStatsRow := {
  container : Container;
  Name : ParColumn;
  ID : ParColumn;
  CPU : GaugeColumn;
  Memory : GaugeColumn;
  Net : ParColumn;
  Block : ParColumn;
  Pids : ParColumn;
  X : Z;
  Y : Z;
  Width : Z;
  Height : Z;
  columns : list column;
  calls : list (column * call)
}.

Definition set_Name (v : ParColumn) (r : ContainerStatsRow)
  : ContainerStatsRow :=
  {| container := container r; Name := v; ID := ID r; CPU := CPU r;
     Memory := Memory r; Net := Net r; Block := Block r; Pids := Pids r;
     X := X r; Y := Y r; Width := Width r; Height := Height r;
     columns := columns r; calls := calls r |}.

Definition set_ID (v : ParColumn) (r : ContainerStatsRow)
  : ContainerStatsRow :=
  {| container := container r; Name := Name r; ID := v; CPU := CPU r;
     Memory := Memory r; Net := Net r; Block := Block r; Pids := Pids r;
     X := X r; Y := Y r; Width := Width r; Height := Height r;
     columns := columns r; calls := calls r |}.

Definition set_CPU (v : GaugeColumn) (r : ContainerStatsRow)
  : ContainerStatsRow :=
  {| container := container r; Name := Name r; ID := ID r; CPU := v;
     Memory := Memory r; Net := Net r; Block := Block r; Pids := Pids r;
     X := X r; Y := Y r; Width := Width r; Height := Height r;
     columns := columns r; calls := calls r |}.

Definition set_Memory (v : GaugeColumn) (r : ContainerStatsRow)
  : ContainerStatsRow :=
  {| container := container r; Name := Name r; ID := ID r; CPU := CPU r;
     Memory := v; Net := Net r; Block := Block r; Pids := Pids r; X := X r;
     Y := Y r; Width := Width r; Height := Height r; columns := columns r;
     calls := calls r |}.

Definition set_Net (v : ParColumn) (r : ContainerStatsRow)
  : ContainerStatsRow :=
  {| container := container r; Name := Name r; ID := ID r; CPU := CPU r;
     Memory := Memory r; Net := v; Block := Block r; Pids := Pids r;
     X := X r; Y := Y r; Width := Width r; Height := Height r;
     columns := columns r; calls := calls r |}.

Definition set_Block (v : ParColumn) (r : ContainerStatsRow)
  : ContainerStatsRow :=
  {| container := container r; Name := Name r; ID := ID r; CPU := CPU r;
     Memory := Memory r; Net := Net r; Block := v; Pids := Pids r;
     X := X r; Y := Y r; Width := Width r; Height := Height r;
     columns := columns r; calls := calls r |}.

Definition set_Pids (v : ParColumn) (r : ContainerStatsRow)
  : ContainerStatsRow :=
  {| container := container r; Name := Name r; ID := ID r; CPU := CPU r;
     Memory := Memory r; Net := Net r; Block := Block r; Pids := v;
     X := X r; Y := Y r; Width := Width r; Height := Height r;
     columns := columns r; calls := calls r |}.

Definition set_X (v : Z) (r : ContainerStatsRow)
  : ContainerStatsRow :=
  {| container := container r; Name := Name r; ID := ID r; CPU := CPU r;
     Memory := Memory r; Net := Net r; Block := Block r; Pids := Pids r;
     X := v; Y := Y r; Width := Width r; Height := Height r;
     columns := columns r; calls := calls r |}.

Definition set_Y (v : Z) (r : ContainerStatsRow)
  : ContainerStatsRow :=
  {| container := container r; Name := Name r; ID := ID r; CPU := CPU r;
     Memory := Memory r; Net := Net r; Block := Block r; Pids := Pids r;
     X := X r; Y := v; Width := Width r; Height := Height r;
     columns := columns r; calls := calls r |}.

Definition set_Width (v : Z) (r : ContainerStatsRow)
  : ContainerStatsRow :=
  {| container := container r; Name := Name r; ID := ID r; CPU := CPU r;
     Memory := Memory r; Net := Net r; Block := Block r; Pids := Pids r;
     X := X r; Y := Y r; Width := v; Height := Height r;
     columns := columns r; calls := calls r |}.

Definition set_calls (v : list (column * call)) (r : ContainerStatsRow)
  : ContainerStatsRow :=
  {| container := container r; Name := Name r; ID := ID r; CPU := CPU r;
     Memory := Memory r; Net := Net r; Block := Block r; Pids := Pids r;
     X := X r; Y := Y r; Width := Width r; Height := Height r;
     columns := columns r; calls := v |}.

Definition percentileToColor (env : Env) (n : Z) : Z :=
  if 90 <? n then Color161 env
  else if 70 <? n then Color131 env
  else Color23 env.

Definition setNet (env : Env) (rx tx : F64.t) (row : ContainerStatsRow)
  : ContainerStatsRow :=
  set_Net (Content (BytesSize env rx ++ " / " ++ BytesSize env tx) (Net row))
    row.

Definition setBlockIO (env : Env) (read write : F64.t)
  (row : ContainerStatsRow) : ContainerStatsRow :=
  set_Block
    (Content (BytesSize env read ++ " / " ++ BytesSize env write) (Block row))
    row.

Definition setPids (env : Env) (pids : Z) (row : ContainerStatsRow)
  : ContainerStatsRow :=
  set_Pids (Content (Itoa env (I64.wrap pids)) (Pids row)) row.

(** The clamp of [setCPU] and [setMem]. *)
Definition clamp_percent (n : Z) : Z :=
  if n <? 5 then 5 else if 100 <? n then 100 else n.

Definition setCPU (env : Env) (val : F64.t) (row : ContainerStatsRow)
  : ContainerStatsRow :=
  let cpu := clamp_percent (float_to_int (unrepresentable env) val) in
  set_CPU {| Label := fmtPercent env val; Percent := cpu;
             BarColor := percentileToColor env cpu;
             PercentColor := PercentColor (CPU row) |} row.

Definition setMem (env : Env) (val limit percent : F64.t)
  (row : ContainerStatsRow) : ContainerStatsRow :=
  let mem := clamp_percent (float_to_int (unrepresentable env) percent) in
  set_Memory {| Label := BytesSize env val ++ " / " ++ BytesSize env limit;
                Percent := mem;
                BarColor := percentileToColor env mem;
                PercentColor := PercentColor (Memory row) |} row.

Definition markAsNotRunning (env : Env) (row : ContainerStatsRow)
  : ContainerStatsRow :=
  let c := Color244 env in
  let row := set_Name (set_TextFgColor c (Name row)) row in
  let row := set_ID (set_TextFgColor c (ID row)) row in
  let row := set_CPU {| Label := "-"; Percent := Percent (CPU row);
                        BarColor := BarColor (CPU row);
                        PercentColor := c |} row in
  let row := set_Memory {| Label := "-"; Percent := Percent (Memory row);
                           BarColor := BarColor (Memory row);
                           PercentColor := c |} row in
  set_Net (set_TextFgColor c (Net row)) row.

Definition Reset (env : Env) (row : ContainerStatsRow) : ContainerStatsRow :=
  let row := set_CPU (GaugeReset env (CPU row)) row in
  let row := set_Memory (GaugeReset env (Memory row)) row in
  let row := set_Net (ParReset (Net row)) row in
  let row := set_Pids (ParReset (Pids row)) row in
  set_Block (ParReset (Block row)) row.

Definition GetHeight (row : ContainerStatsRow) : Z := Height row.

Definition SetX (x : Z) (row : ContainerStatsRow) : ContainerStatsRow :=
  set_X x row.

Definition SetY (y : Z) (row : ContainerStatsRow) : ContainerStatsRow :=
  if y =? Y row then row
  else
    let row :=
      set_calls (calls row ++ map (fun col => (col, CallSetY y)) (columns row))
        row in
    set_Y y row.

(** The loop of [SetWidth]: the calls on the columns from position [x]. *)
Fixpoint layout (rw spacing x : Z) (cols : list column)
  : list (column * call) :=
  match cols with
  | [] => []
  | col :: cols' =>
      (col, CallSetX x) :: (col, CallSetWidth rw)
      :: layout rw spacing (I64.add x (I64.add rw spacing)) cols'
  end.

Definition SetWidth (env : Env) (width : Z) (row : ContainerStatsRow)
  : ContainerStatsRow :=
  if width =? Width row then row
  else
    let row := set_Width width row in
    let x := X row in
    let rw := calcItemWidth env width (Z.of_nat (length (columns row))) in
    set_calls (calls row ++ layout rw (columnSpacing env) x (columns row)) row.

(** What [setCPU] and [setMem] establish of a gauge. *)
Definition gauge_ok (env : Env) (g : GaugeColumn) : Prop :=
  5 <= Percent g <= 100 /\ BarColor g = percentileToColor env (Percent g).

(** The positioning calls of [SetWidth] in closed form: column [i] is put
    at [x + i * (rw + spacing)] and given the width [rw]. *)
Definition layout_calls (rw spacing x : Z) (cols : list column)
  : list (column * call) :=
  concat (imap (fun i col =>
                  [ (col, CallSetX
                            (I64.wrap (x + Z.of_nat i * (rw + spacing))));
                    (col, CallSetWidth rw) ]) cols).

(** The body of the consumer's loop, for one received record. *)
Definition update (env : Env) (row : ContainerStatsRow) (stat : Stats)
  : ContainerStatsRow :=
  let row := setNet env (NetworkRx stat) (NetworkTx stat) row in
  let row := setCPU env (CPUPercentage stat) row in
  let row := setMem env (stat_Memory stat) (MemoryLimit stat)
               (MemoryPercentage stat) row in
  let row := setBlockIO env (BlockRead stat) (BlockWrite stat) row in
  setPids env (PidsCurrent stat) row.

(** The consumer goroutine, over the records it receives until the
    channel is closed. *)
Definition consume (env : Env) (row : ContainerStatsRow)
  (received : list Stats) : ContainerStatsRow :=
  fold_left (update env) received row.

(** [NewContainerStatsRow]: the row as returned, and whether a consumer
    goroutine was started on [s.Stats]. *)
Definition NewContainerStatsRow (env : Env) (s : StatsChannel.t)
  : ContainerStatsRow * bool :=
  let c := StatsChannel.Container s in
  let row :=
    {| container := c;
       Name := NewThemedParColumn env (formatNames env c);
       ID := NewThemedParColumn env (formatID env c);
       CPU := NewThemedGaugeColumn env;
       Memory := NewThemedGaugeColumn env;
       Net := NewThemedParColumn env "-";
       Block := NewThemedParColumn env "-";
       Pids := NewThemedParColumn env "-";
       X := 0; Y := 0; Width := 0; Height := 1;
       columns := [ColID; ColName; ColCPU; ColMemory; ColNet; ColBlock;
                   ColPids];
       calls := [] |} in
  if IsContainerRunning env c then (row, true)
  else (markAsNotRunning env row, false).

(** A row is a [ui.GridBufferer]. *)
#[export] Instance row_GridBufferer (env : Env)
  : ui.GridBufferer ContainerStatsRow :=
  {| ui.GetHeight := GetHeight; ui.SetX := SetX; ui.SetY := SetY;
     ui.SetWidth := SetWidth env |}.

End appui.

(** ** Concrete grids and rows *)

(** Some environment: the functions and constants of the other packages
    are stand-ins, the properties below do not depend on them. *)
Definition example_env : appui.Env :=
  {| appui.BytesSize := fun _ => "0B";
     appui.fmtPercent := fun _ => "0.00%";
     appui.Itoa := fun _ => "0";
     appui.unrepresentable := fun _ => I64.min_int;
     appui.Color23 := 24;
     appui.Color131 := 132;
     appui.Color161 := 162;
     appui.Color244 := 245;
     appui.themeBg := 0;
     appui.themeFg := 1;
     appui.NewPar := fun s =>
       {| appui.Text := s; appui.Bg := 0; appui.TextBgColor := 0;
          appui.TextFgColor := 0; appui.Border := true |};
     appui.NewThemedGaugeColumn :=
       {| appui.Label := ""; appui.Percent := 0; appui.BarColor := 0;
          appui.PercentColor := 0 |};
     appui.GaugeReset := fun g => g;
     appui.formatNames := fun c => "web";
     appui.formatID := fun c => ID c;
     appui.calcItemWidth := fun width n => width / n;
     appui.columnSpacing := 1;
     appui.IsContainerRunning := fun _ => true |}.

Definition example_channel : StatsChannel.t :=
  {| StatsChannel.Container := example_container;
     StatsChannel.Stats := Some 0%nat;
     StatsChannel.Done := Some 1%nat |}.

Definition example_row : appui.ContainerStatsRow :=
  fst (appui.NewContainerStatsRow example_env example_channel).

(** Five rows in a grid of height 4, the cursor on the fourth. *)
Definition example_grid : termui.Grid :=
  {| termui.rows :=
       {| Slice.elems := [Some 0; Some 1; Some 2; Some 3; Some 4]%nat;
          Slice.cap := 8 |};
     termui.X := 0; termui.Y := 2; termui.Height := 4; termui.Width := 70;
     termui.Offset := 3 |}.

(** The same grid with the offset left at 7 from an earlier, longer list. *)
Definition stale_grid : termui.Grid := termui.set_Offset 7 example_grid.

Definition example_heap : gmap nat appui.ContainerStatsRow :=
  list_to_map (map (fun p => (p, example_row)) [0; 1; 2; 3; 4]%nat).

(** Three interfaces whose received bytes add up to [2^53 + 2], and an
    order in which the map can be visited. *)
Definition big_a : string * NetworkStats :=
  ("a", {| RxBytes := 2 ^ 53; TxBytes := 0 |}).
Definition small_b : string * NetworkStats :=
  ("b", {| RxBytes := 1; TxBytes := 0 |}).
Definition small_c : string * NetworkStats :=
  ("c", {| RxBytes := 1; TxBytes := 0 |}).

Definition rounding_stats : StatsJSON :=
  mkStats 200 1000 100 800 [100; 100] 500 1000 []
    (list_to_map [big_a; small_b; small_c]) 3.

(** A snapshot without a memory limit. *)
Definition no_limit_stats : StatsJSON :=
  mkStats 200 1000 100 800 [100; 100] 500 0 [] ∅ 3.

(** ** Magnitudes of binary64 values *)

(** [+0] or a positive finite number below [2^k] whose exponent is at
    least [lo]: in particular not NaN, not infinite, not negative. *)
Definition F64_bounded (lo k : Z) (x : F64.t) : Prop :=
  match x with
  | S754_zero false => True
  | S754_finite false m e => lo <= e /\ Zpos m < 2 ^ (k - e)
  | _ => False
  end.

(** [+0] or a positive finite number. *)
Definition F64_finite_nonneg (x : F64.t) : bool :=
  match x with
  | S754_zero false | S754_finite false _ _ => true
  | _ => false
  end.

(** * Properties *)

(** ** Facts about binary64 conversion and addition *)

Module F64Facts.

Lemma digits2_size (p : positive) : digits2_pos p = Pos.size p.
Proof. induction p; simpl; congruence. Qed.

Lemma digits_lower (p : positive) : 2 ^ (Zpos (digits2_pos p) - 1) <= Zpos p.
Proof.
  rewrite digits2_size.
  pose proof (Pos.size_le p) as H.
  assert (Hs : Zpos (Pos.size p) = Z.succ (Zpos (Pos.size p) - 1)) by lia.
  assert (H2 : 2 ^ Zpos (Pos.size p) <= 2 * Zpos p).
  { change (2 * Zpos p) with (Zpos p~0). rewrite <- Pos2Z.inj_pow. apply Pos2Z.pos_le_pos. exact H. }
  rewrite Hs in H2. rewrite Z.pow_succ_r in H2 by lia. lia.
Qed.

Lemma digits_upper (p : positive) : Zpos p < 2 ^ Zpos (digits2_pos p).
Proof.
  rewrite digits2_size. pose proof (Pos.size_gt p) as H.
  rewrite <- Pos2Z.inj_pow. apply Pos2Z.pos_lt_pos. exact H.
Qed.

Lemma iter_pos_nat {A} (f : A -> A) (p : positive) (x : A) :
  SpecFloat.iter_pos f p x = Nat.iter (Pos.to_nat p) f x.
Proof.
  revert x. induction p as [p IH|p IH|]; intros x; cbn [SpecFloat.iter_pos].
  - rewrite !IH. rewrite Pos2Nat.inj_xI. 
    replace (S (2 * Pos.to_nat p))%nat with (Pos.to_nat p + (Pos.to_nat p + 1))%nat by lia.
    rewrite !Nat.iter_add. simpl. reflexivity.
  - rewrite !IH. rewrite Pos2Nat.inj_xO.
    replace (2 * Pos.to_nat p)%nat with (Pos.to_nat p + Pos.to_nat p)%nat by lia.
    rewrite Nat.iter_add. reflexivity.
  - reflexivity.
Qed.

Lemma shr_1_m (mrs : shr_record) :
  0 <= shr_m mrs -> shr_m (shr_1 mrs) = shr_m mrs / 2.
Proof.
  destruct mrs as [m r s]. simpl. intros Hm.
  destruct m as [|[p|p|]|p]; simpl; try reflexivity; try lia.
  - apply Z.div_unique with 1; lia.
  - apply Z.div_unique with 0; lia.
Qed.

Lemma shr_iter_m (n : nat) (mrs : shr_record) :
  0 <= shr_m mrs ->
  shr_m (Nat.iter n shr_1 mrs) = shr_m mrs / 2 ^ Z.of_nat n.
Proof.
  intros Hm. induction n as [|n IH].
  - simpl. now rewrite Z.div_1_r.
  - rewrite Nat2Z.inj_succ, Z.pow_succ_r by lia. simpl.
    rewrite shr_1_m.
    + rewrite IH. rewrite Z.div_div by lia. f_equal. lia.
    + rewrite IH. apply Z.div_pos; lia.
Qed.


Lemma shr_record_of_loc_m (m : Z) (l : location) :
  shr_m (shr_record_of_loc m l) = m.
Proof. destruct l as [|[]]; reflexivity. Qed.

(** [shr] divides the mantissa by a power of two and moves the exponent. *)
Lemma shr_spec (mrs : shr_record) (e n : Z) :
  0 <= shr_m mrs ->
  shr_m (fst (shr mrs e n)) = shr_m mrs / 2 ^ Z.max 0 n /\
  snd (shr mrs e n) = e + Z.max 0 n.
Proof.
  intros Hm. destruct n as [|q|q]; simpl.
  - rewrite Z.div_1_r. split; [reflexivity | lia].
  - rewrite iter_pos_nat, shr_iter_m by assumption.
    rewrite positive_nat_Z. split; reflexivity.
  - rewrite Z.div_1_r. split; [reflexivity | lia].
Qed.

Lemma shr_fexp_pos (p : positive) (e : Z) (l : location) :
  F64.emin <= e ->
  0 < shr_m (fst (shr_fexp F64.prec F64.emax (Zpos p) e l)) /\
  F64.emin <= snd (shr_fexp F64.prec F64.emax (Zpos p) e l).
Proof.
  intros He. unfold shr_fexp.
  set (n := SpecFloat.fexp F64.prec F64.emax (Zdigits2 (Zpos p) + e) - e).
  destruct (shr_spec (shr_record_of_loc (Zpos p) l) e n) as [Hm Hs].
  { rewrite shr_record_of_loc_m. lia. }
  rewrite Hm, Hs, shr_record_of_loc_m. split; [|lia].
  assert (Hn : Z.max 0 n <= Zpos (digits2_pos p) - 1).
  { subst n. unfold SpecFloat.fexp, F64.emin, SpecFloat.emin, F64.prec, F64.emax in *.
    simpl Zdigits2. lia. }
  pose proof (digits_lower p) as Hd.
  assert (Hp : 2 ^ Z.max 0 n <= Zpos p).
  { etransitivity; [|exact Hd]. apply Z.pow_le_mono_r; lia. }
  assert (0 < 2 ^ Z.max 0 n) by (apply Z.pow_pos_nonneg; lia).
  apply Z.div_str_pos. lia.
Qed.

Lemma round_nearest_even_ge (m : Z) (l : location) :
  m <= round_nearest_even m l.
Proof.
  destruct l as [|[]]; simpl; try lia. destruct (Z.even m); lia.
Qed.

Lemma binary_round_aux_pos (p : positive) (e : Z) (l : location) :
  F64.emin <= e ->
  F64.is_pos (binary_round_aux F64.prec F64.emax false (Zpos p) e l) = true.
Proof.
  intros He. unfold binary_round_aux.
  destruct (shr_fexp_pos p e l He) as [Hm1 He1].
  destruct (shr_fexp F64.prec F64.emax (Zpos p) e l) as [mrs1 e1]. simpl in Hm1, He1.
  pose proof (round_nearest_even_ge (shr_m mrs1) (loc_of_shr_record mrs1)) as Hr.
  destruct (round_nearest_even (shr_m mrs1) (loc_of_shr_record mrs1)) as [|q|q]; try lia.
  destruct (shr_fexp_pos q e1 loc_Exact He1) as [Hm2 He2].
  destruct (shr_fexp F64.prec F64.emax (Zpos q) e1 loc_Exact) as [mrs2 e2]. simpl in Hm2, He2.
  destruct (shr_m mrs2) as [|m2|m2]; try lia.
  destruct (e2 <=? F64.emax - F64.prec); reflexivity.
Qed.

(** [float64(n)] of a positive integer is a positive number. *)
Lemma of_Z_pos (n : Z) : 0 < n -> F64.is_pos (F64.of_Z n) = true.
Proof.
  intros Hn. destruct n as [|p|p]; try lia.
  unfold F64.of_Z, binary_normalize, binary_round.
  set (ex := SpecFloat.fexp F64.prec F64.emax (Zpos (digits2_pos p) + 0)).
  assert (Hex : F64.emin <= ex).
  { subst ex. unfold SpecFloat.fexp, F64.emin. lia. }
  unfold shl_align. destruct (ex - 0) eqn:Hd; apply binary_round_aux_pos;
    unfold F64.emin, SpecFloat.emin, F64.prec, F64.emax in *; lia.
Qed.

Lemma ltb_zero_pos (x : F64.t) : F64.ltb F64.zero x = F64.is_pos x.
Proof. destruct x as [[]|[]| |[] m e]; reflexivity. Qed.


(** *** Exact conversions and additions *)

Lemma digits_unique (p : positive) (d : Z) :
  2 ^ (d - 1) <= Zpos p < 2 ^ d -> Zpos (digits2_pos p) = d.
Proof.
  intros [Hl Hu].
  pose proof (digits_lower p) as Hl'. pose proof (digits_upper p) as Hu'.
  assert (Hd : 0 < d).
  { destruct (Z.lt_ge_cases 0 d) as [|Hle]; [assumption|].
    assert (2 ^ d <= 2 ^ 0) by (apply Z.pow_le_mono_r; lia).
    change (2 ^ 0) with 1 in *. lia. }
  assert (d - 1 < Zpos (digits2_pos p)).
  { apply (Z.pow_lt_mono_r_iff 2); lia. }
  assert (Zpos (digits2_pos p) - 1 < d).
  { apply (Z.pow_lt_mono_r_iff 2); lia. }
  lia.
Qed.

Lemma digits_mono (p q : positive) :
  (p <= q)%positive -> Zpos (digits2_pos p) <= Zpos (digits2_pos q).
Proof.
  intros Hpq.
  pose proof (digits_lower p) as Hl. pose proof (digits_upper q) as Hu.
  assert (Zpos (digits2_pos p) - 1 < Zpos (digits2_pos q)).
  { apply (Z.pow_lt_mono_r_iff 2); lia. }
  lia.
Qed.

Lemma digits_shift (p q : positive) (k : Z) :
  0 <= k -> Zpos q = Zpos p * 2 ^ k ->
  Zpos (digits2_pos q) = Zpos (digits2_pos p) + k.
Proof.
  intros Hk Hq. apply digits_unique.
  pose proof (digits_lower p) as Hl. pose proof (digits_upper p) as Hu.
  assert (H2 : 0 < 2 ^ k) by (apply Z.pow_pos_nonneg; lia).
  replace (Zpos (digits2_pos p) + k - 1) with (Zpos (digits2_pos p) - 1 + k) by lia.
  rewrite !Z.pow_add_r by lia. rewrite Hq. split; nia.
Qed.

Lemma shr_1_exact (m : Z) :
  0 <= m -> (2 | m) ->
  shr_1 (Build_shr_record m false false) = Build_shr_record (m / 2) false false.
Proof.
  intros Hm [c Hc]. subst m. rewrite Z.div_mul by lia.
  rewrite (Z.mul_comm c 2). destruct c as [|c|c]; try lia; reflexivity.
Qed.

Lemma shr_iter_exact (n : nat) (m : Z) :
  0 <= m -> (2 ^ Z.of_nat n | m) ->
  Nat.iter n shr_1 (Build_shr_record m false false)
  = Build_shr_record (m / 2 ^ Z.of_nat n) false false.
Proof.
  revert m. induction n as [|n IH]; intros m Hm Hdiv.
  - simpl. now rewrite Z.div_1_r.
  - rewrite Nat2Z.inj_succ, Z.pow_succ_r in * by lia.
    destruct Hdiv as [c Hc].
    change (Nat.iter (S n) shr_1 ?x) with (shr_1 (Nat.iter n shr_1 x)).
    assert (H2 : 0 < 2 ^ Z.of_nat n) by (apply Z.pow_pos_nonneg; lia).
    rewrite IH; [|lia|exists (c * 2); lia].
    assert (Hq : m / 2 ^ Z.of_nat n = c * 2).
    { subst m. replace (c * (2 * 2 ^ Z.of_nat n)) with (c * 2 * 2 ^ Z.of_nat n) by lia.
      apply Z.div_mul. lia. }
    rewrite shr_1_exact; [|nia|exists c; lia].
    f_equal. rewrite Hq, Z.div_mul by lia.
    subst m. symmetry. apply Z.div_mul. lia.
Qed.

Lemma shr_exact (m e n : Z) :
  0 <= m -> (2 ^ Z.max 0 n | m) ->
  shr (Build_shr_record m false false) e n
  = (Build_shr_record (m / 2 ^ Z.max 0 n) false false, e + Z.max 0 n).
Proof.
  intros Hm Hdiv. destruct n as [|q|q]; simpl in *.
  - rewrite Z.div_1_r. f_equal. lia.
  - rewrite iter_pos_nat, shr_iter_exact; rewrite ?positive_nat_Z; auto.
  - rewrite Z.div_1_r. f_equal. lia.
Qed.


(** A mantissa that is a 53-digit number times a power of two rounds to
    that number without loss. *)
Lemma binary_round_aux_exact (m1 : positive) (m e e1 : Z) :
  Zpos (digits2_pos m1) = F64.prec ->
  F64.emin <= e1 <= F64.emax - F64.prec ->
  e <= e1 -> m = Zpos m1 * 2 ^ (e1 - e) ->
  binary_round_aux F64.prec F64.emax false m e loc_Exact
  = S754_finite false m1 e1.
Proof.
  intros Hd He1 He Hm.
  assert (H2 : 0 < 2 ^ (e1 - e)) by (apply Z.pow_pos_nonneg; lia).
  destruct m as [|p|p]; try nia.
  pose proof (digits_shift m1 p (e1 - e) ltac:(lia) Hm) as Hdp.
  unfold binary_round_aux, shr_fexp.
  cbn [shr_record_of_loc Zdigits2].
  assert (Hn : SpecFloat.fexp F64.prec F64.emax (Zpos (digits2_pos p) + e) - e = e1 - e).
  { unfold SpecFloat.fexp, F64.emin, SpecFloat.emin, F64.prec, F64.emax in *. lia. }
  rewrite Hn, shr_exact; [|lia|rewrite Z.max_r by lia; exists (Zpos m1); exact Hm].
  rewrite Z.max_r by lia. rewrite Hm, Z.div_mul by lia.
  cbn [shr_m loc_of_shr_record round_nearest_even shr_record_of_loc Zdigits2].
  assert (Hn2 : SpecFloat.fexp F64.prec F64.emax (Zpos (digits2_pos m1) + (e + (e1 - e)))
                - (e + (e1 - e)) = 0).
  { unfold SpecFloat.fexp, F64.emin, SpecFloat.emin, F64.prec, F64.emax in *. lia. }
  rewrite Hn2. cbn [shr shr_m].
  replace (e + (e1 - e)) with e1 by lia.
  destruct (Z.leb_spec e1 (F64.emax - F64.prec)); [reflexivity | lia].
Qed.

Lemma iter_xO_pow (p : positive) (q : positive) :
  Zpos (Pos.iter xO p q) = Zpos p * 2 ^ Zpos q.
Proof.
  rewrite <- (positive_nat_Z q), Pos2Nat.inj_iter.
  induction (Pos.to_nat q) as [|n IH].
  - simpl. lia.
  - rewrite Nat2Z.inj_succ, Z.pow_succ_r by lia.
    cbn [nat_rect]. rewrite Pos2Z.inj_xO, IH. lia.
Qed.

Lemma shl_align_fst (m : positive) (e ez : Z) :
  ez <= e -> Zpos (fst (shl_align m e ez)) = Zpos m * 2 ^ (e - ez).
Proof.
  intros He. unfold shl_align. destruct (ez - e) as [|q|q] eqn:Hq; simpl.
  - replace (e - ez) with 0 by lia. lia.
  - lia.
  - rewrite iter_xO_pow. f_equal. f_equal. lia.
Qed.

Lemma binary_round_exact (m1 m : positive) (e e1 : Z) :
  Zpos (digits2_pos m1) = F64.prec ->
  F64.emin <= e1 <= F64.emax - F64.prec ->
  Zpos m * 2 ^ (e - Z.min e e1) = Zpos m1 * 2 ^ (e1 - Z.min e e1) ->
  binary_round F64.prec F64.emax false m e = S754_finite false m1 e1.
Proof.
  intros Hd He1 Hv. unfold binary_round.
  assert (Hfe : SpecFloat.fexp F64.prec F64.emax (Zpos (digits2_pos m) + e) = e1).
  { destruct (Z.le_ge_cases e e1) as [Hle|Hle].
    - rewrite Z.min_l, Z.sub_diag, Z.mul_1_r in Hv by lia.
      rewrite (digits_shift m1 m (e1 - e)) by lia.
      unfold SpecFloat.fexp, F64.emin, SpecFloat.emin, F64.prec, F64.emax in *. lia.
    - rewrite Z.min_r, Z.sub_diag, Z.mul_1_r in Hv by lia.
      pose proof (digits_shift m m1 (e - e1) ltac:(lia) (eq_sym Hv)) as Hs.
      unfold SpecFloat.fexp, F64.emin, SpecFloat.emin, F64.prec, F64.emax in *. lia. }
  rewrite Hfe. unfold shl_align.
  destruct (e1 - e) as [|q|q] eqn:Hq.
  - apply binary_round_aux_exact; try assumption; try lia.
    rewrite Z.min_l, Z.sub_diag, Z.mul_1_r in Hv by lia. exact Hv.
  - apply binary_round_aux_exact; try assumption; try lia.
    rewrite Z.min_l, Z.sub_diag, Z.mul_1_r in Hv by lia. exact Hv.
  - apply binary_round_aux_exact; try assumption; try lia.
    rewrite Z.sub_diag, Z.mul_1_r, iter_xO_pow.
    rewrite Z.min_r, Z.sub_diag, Z.mul_1_r in Hv by lia.
    rewrite <- Hv. f_equal. f_equal. lia.
Qed.


Lemma digits_small (n : positive) :
  Zpos n < 2 ^ F64.prec -> 1 <= Zpos (digits2_pos n) <= F64.prec.
Proof.
  intros Hn. pose proof (digits_lower n) as Hl.
  assert (Zpos (digits2_pos n) - 1 < F64.prec).
  { apply (Z.pow_lt_mono_r_iff 2); unfold F64.prec in *; lia. }
  lia.
Qed.

Lemma canon_mantissa (n : positive) :
  Zpos n < 2 ^ F64.prec ->
  Zpos (Z.to_pos (Zpos n * 2 ^ (F64.prec - Zpos (digits2_pos n))))
  = Zpos n * 2 ^ (F64.prec - Zpos (digits2_pos n)) /\
  Zpos (digits2_pos (Z.to_pos (Zpos n * 2 ^ (F64.prec - Zpos (digits2_pos n)))))
  = F64.prec.
Proof.
  intros Hn. pose proof (digits_small n Hn) as Hd.
  assert (H2 : 0 < 2 ^ (F64.prec - Zpos (digits2_pos n)))
    by (apply Z.pow_pos_nonneg; lia).
  assert (Hz : Zpos (Z.to_pos (Zpos n * 2 ^ (F64.prec - Zpos (digits2_pos n))))
               = Zpos n * 2 ^ (F64.prec - Zpos (digits2_pos n))).
  { apply Z2Pos.id. nia. }
  split; [exact Hz|].
  rewrite (digits_shift n _ (F64.prec - Zpos (digits2_pos n))); [lia|lia|exact Hz].
Qed.

(** A positive integer below [2^53] converts without rounding. *)
Lemma of_Z_canon (n : positive) :
  Zpos n < 2 ^ F64.prec -> F64.of_Z (Zpos n) = F64.canon n.
Proof.
  intros Hn. pose proof (digits_small n Hn) as Hd.
  destruct (canon_mantissa n Hn) as [Hz Hdig].
  unfold F64.of_Z, binary_normalize, F64.canon.
  apply binary_round_exact.
  - exact Hdig.
  - unfold F64.emin, SpecFloat.emin, F64.prec, F64.emax in *. lia.
  - rewrite Hz. rewrite Z.min_r by (unfold F64.prec in *; lia).
    rewrite Z.sub_diag, Z.mul_1_r. f_equal. f_equal. lia.
Qed.

Lemma add_canon (a b : positive) :
  Zpos a + Zpos b < 2 ^ F64.prec ->
  F64.add (F64.canon a) (F64.canon b) = F64.canon (a + b).
Proof.
  intros Hab.
  assert (Ha : Zpos a < 2 ^ F64.prec) by lia.
  assert (Hb : Zpos b < 2 ^ F64.prec) by lia.
  assert (Hs : Zpos (a + b) < 2 ^ F64.prec) by lia.
  pose proof (digits_small a Ha) as Hda. pose proof (digits_small b Hb) as Hdb.
  pose proof (digits_small (a + b) Hs) as Hds.
  pose proof (digits_mono a (a + b) ltac:(lia)) as Hma.
  pose proof (digits_mono b (a + b) ltac:(lia)) as Hmb.
  destruct (canon_mantissa a Ha) as [Hza _].
  destruct (canon_mantissa b Hb) as [Hzb _].
  destruct (canon_mantissa (a + b) Hs) as [Hzs Hdig].
  unfold F64.add, SFadd, F64.canon. cbn [cond_Zopp].
  set (da := Zpos (digits2_pos a)) in *. set (db := Zpos (digits2_pos b)) in *.
  set (ds := Zpos (digits2_pos (a + b))) in *.
  set (ez := Z.min (da - F64.prec) (db - F64.prec)).
  rewrite !shl_align_fst by lia. rewrite Hza, Hzb.
  assert (Hsum : Zpos a * 2 ^ (F64.prec - da) * 2 ^ (da - F64.prec - ez)
                 + Zpos b * 2 ^ (F64.prec - db) * 2 ^ (db - F64.prec - ez)
                 = Zpos (a + b) * 2 ^ (- ez)).
  { rewrite <- !Z.mul_assoc, <- !Z.pow_add_r by lia.
    replace (F64.prec - da + (da - F64.prec - ez)) with (- ez) by lia.
    replace (F64.prec - db + (db - F64.prec - ez)) with (- ez) by lia.
    rewrite Pos2Z.inj_add. lia. }
  rewrite Hsum.
  assert (H2 : 0 < 2 ^ (- ez)) by (apply Z.pow_pos_nonneg; lia).
  destruct (Zpos (a + b) * 2 ^ (- ez)) as [|M|M] eqn:HM; try nia.
  unfold binary_normalize. apply binary_round_exact.
  - exact Hdig.
  - unfold F64.emin, SpecFloat.emin, F64.prec, F64.emax in *. lia.
  - rewrite Z.min_l by lia. rewrite Z.sub_diag, Z.mul_1_r, Hzs, <- HM.
    rewrite <- Z.mul_assoc, <- Z.pow_add_r by lia.
    f_equal. f_equal. lia.
Qed.

Lemma add_of_Z (a b : Z) :
  0 <= a -> 0 <= b -> a + b < 2 ^ F64.prec ->
  F64.add (F64.of_Z a) (F64.of_Z b) = F64.of_Z (a + b).
Proof.
  intros Ha Hb Hab.
  destruct a as [|a|a]; try lia; destruct b as [|b|b]; try lia.
  - reflexivity.
  - rewrite Z.add_0_l, of_Z_canon by lia. reflexivity.
  - rewrite Z.add_0_r, of_Z_canon by lia. reflexivity.
  - rewrite <- Pos2Z.inj_add, !of_Z_canon by lia. apply add_canon. lia.
Qed.

End F64Facts.

(** ** The metrics calculator *)

Lemma u64_sub_exact (a b : Z) :
  U64.in_range a -> U64.in_range b -> b <= a -> U64.sub a b = a - b.
Proof.
  unfold U64.in_range, U64.sub, U64.wrap. intros Ha Hb Hab.
  apply Z.mod_small. lia.
Qed.

Lemma u64_sub_diag (a : Z) : U64.sub a a = 0.
Proof. unfold U64.sub, U64.wrap. now rewrite Z.sub_diag. Qed.

Lemma wf_example_stats : wf_stats example_stats.
Proof. split; cbv; split; congruence. Qed.

Lemma wf_backwards_stats : wf_stats backwards_stats.
Proof. split; cbv; split; congruence. Qed.

(** C1. When both counters moved forward between the two readings, the CPU
    percentage is [(cpuDelta / systemDelta) * numCores * 100] in binary64
    arithmetic, with [cpuDelta] and [systemDelta] the exact differences and
    [numCores] the number of per-core entries of the current reading. *)
Theorem calculateCPUPercent_positive_deltas (stats : StatsJSON) :
  wf_stats stats ->
  0 < TotalUsage (CPUUsage_ (CPUStats_ stats))
      - TotalUsage (CPUUsage_ (PreCPUStats stats)) ->
  0 < SystemUsage (CPUStats_ stats) - SystemUsage (PreCPUStats stats) ->
  calculateCPUPercent stats =
  F64.mul
    (F64.mul
       (F64.div
          (F64.of_Z (TotalUsage (CPUUsage_ (CPUStats_ stats))
                     - TotalUsage (CPUUsage_ (PreCPUStats stats))))
          (F64.of_Z (SystemUsage (CPUStats_ stats)
                     - SystemUsage (PreCPUStats stats))))
       (F64.of_Z (Z.of_nat (length (PercpuUsage (CPUUsage_ (CPUStats_ stats)))))))
    (F64.of_Z 100).
Proof.
  intros [Ht Hs Hpt Hps _ _] Hcpu Hsys. unfold calculateCPUPercent.
  rewrite !u64_sub_exact by (assumption || lia).
  rewrite !F64Facts.ltb_zero_pos, !F64Facts.of_Z_pos by assumption.
  reflexivity.
Qed.

Lemma calculateCPUPercent_positive_deltas_witness :
  calculateCPUPercent example_stats = F64.of_Z 100.
Proof.
  rewrite (calculateCPUPercent_positive_deltas example_stats
             wf_example_stats ltac:(reflexivity) ltac:(reflexivity)).
  vm_compute. reflexivity.
Defined.

(** A counter that did not move between the two readings gives 0. *)
Lemma calculateCPUPercent_zero_delta (stats : StatsJSON) :
  TotalUsage (CPUUsage_ (CPUStats_ stats))
  = TotalUsage (CPUUsage_ (PreCPUStats stats)) \/
  SystemUsage (CPUStats_ stats) = SystemUsage (PreCPUStats stats) ->
  calculateCPUPercent stats = F64.zero.
Proof.
  unfold calculateCPUPercent. intros [H|H]; rewrite H, u64_sub_diag.
  - rewrite andb_comm. reflexivity.
  - reflexivity.
Qed.

(** C2. With the container counter gone backwards (200 then 100, a delta of
    -100) and the system counter forward, the unsigned subtraction wraps to
    [2^64 - 100], the guard [cpuDelta > 0.0] passes and the percentage is
    [2^64] (about 1.8e19), not 0. *)
Theorem calculateCPUPercent_backwards_counter :
  wf_stats backwards_stats /\
  TotalUsage (CPUUsage_ (CPUStats_ backwards_stats))
  - TotalUsage (CPUUsage_ (PreCPUStats backwards_stats)) = -100 /\
  calculateCPUPercent backwards_stats = F64.of_Z (2 ^ 64) /\
  calculateCPUPercent backwards_stats <> F64.zero.
Proof.
  split; [exact wf_backwards_stats|]. split; [reflexivity|].
  split; [vm_compute; reflexivity|]. vm_compute. discriminate.
Qed.

(** C3. The memory percentage is [usage / limit * 100] in binary64
    arithmetic when the limit is not zero, the divisor then being a
    positive number, and 0 when the limit is zero. *)
Theorem calculateMemPercentage_spec (stats : StatsJSON) :
  wf_stats stats ->
  (Limit (MemoryStats_ stats) <> 0 ->
   calculateMemPercentage stats =
   F64.mul
     (F64.div (F64.of_Z (Usage (MemoryStats_ stats)))
        (F64.of_Z (Limit (MemoryStats_ stats))))
     (F64.of_Z 100) /\
   F64.is_pos (F64.of_Z (Limit (MemoryStats_ stats))) = true) /\
  (Limit (MemoryStats_ stats) = 0 -> calculateMemPercentage stats = F64.zero).
Proof.
  intros [_ _ _ _ _ Hl]. unfold calculateMemPercentage. split.
  - intros Hne. destruct (Z.eqb_spec (Limit (MemoryStats_ stats)) 0) as [|_]; [contradiction|].
    split; [reflexivity|]. apply F64Facts.of_Z_pos. unfold U64.in_range in Hl. lia.
  - intros ->. reflexivity.
Qed.

Lemma calculateMemPercentage_spec_witness :
  calculateMemPercentage example_stats = F64.of_Z 50.
Proof.
  destruct (calculateMemPercentage_spec example_stats wf_example_stats) as [H _].
  destruct (H ltac:(discriminate)) as [-> _]. vm_compute. reflexivity.
Defined.

(** ** Block I/O *)

Section BlockIO.

Variable ToLower : string -> string.

Lemma wrap_add_l (a v : Z) : U64.add (U64.wrap a) v = U64.wrap (a + v).
Proof.
  unfold U64.add, U64.wrap. rewrite Z.add_mod_idemp_l; [reflexivity|].
  unfold U64.modulus. lia.
Qed.

Lemma op_total_cons (label : string) (e : BlkioStatEntry)
  (entries : list BlkioStatEntry) :
  op_total ToLower label (e :: entries) =
  (if decide (ToLower (Op e) = label) then Value e else 0)
  + op_total ToLower label entries.
Proof.
  unfold op_total. rewrite filter_cons.
  destruct (decide (ToLower (Op e) = label)); reflexivity.
Qed.

(** The loop, from any pair of accumulated totals. *)
Lemma blockio_loop (entries : list BlkioStatEntry) (r w : Z) :
  fold_left (blockio_step ToLower) entries (U64.wrap r, U64.wrap w) =
  (U64.wrap (r + op_total ToLower "read" entries),
   U64.wrap (w + op_total ToLower "write" entries)).
Proof.
  revert r w. induction entries as [|e entries IH]; intros r w.
  - simpl. unfold op_total. simpl. now rewrite !Z.add_0_r.
  - cbn [fold_left]. rewrite !op_total_cons. unfold blockio_step at 2.
    destruct (String.eqb_spec (ToLower (Op e)) "read") as [Hr|Hr].
    + rewrite wrap_add_l, IH. rewrite Hr.
      destruct (decide ("read" = "read")) as [_|]; [|congruence].
      destruct (decide ("read" = "write")) as [|_]; [discriminate|].
      f_equal; f_equal; lia.
    + destruct (String.eqb_spec (ToLower (Op e)) "write") as [Hw|Hw].
      * rewrite wrap_add_l, IH.
        destruct (decide (ToLower (Op e) = "read")); [contradiction|].
        destruct (decide (ToLower (Op e) = "write")); [|contradiction].
        f_equal; f_equal; lia.
      * rewrite IH.
        destruct (decide (ToLower (Op e) = "read")); [contradiction|].
        destruct (decide (ToLower (Op e) = "write")); [contradiction|].
        f_equal; f_equal; lia.
Qed.

(** C4, as amended. Labels are compared after lowercasing; the two results
    are the totals of the "read" and of the "write" entries modulo [2^64],
    hence the totals themselves whenever these stay below [2^64]; entries
    with any other label count in neither. *)
Theorem calculateBlockIO_totals (stats : StatsJSON) :
  Forall (fun e => U64.in_range (Value e))
    (IoServiceBytesRecursive (BlkioStats_ stats)) ->
  let entries := IoServiceBytesRecursive (BlkioStats_ stats) in
  calculateBlockIO ToLower stats =
  (U64.wrap (op_total ToLower "read" entries),
   U64.wrap (op_total ToLower "write" entries)) /\
  (op_total ToLower "read" entries < U64.modulus ->
   fst (calculateBlockIO ToLower stats) = op_total ToLower "read" entries) /\
  (op_total ToLower "write" entries < U64.modulus ->
   snd (calculateBlockIO ToLower stats) = op_total ToLower "write" entries).
Proof.
  intros Hwf entries.
  assert (Heq : calculateBlockIO ToLower stats =
                (U64.wrap (op_total ToLower "read" entries),
                 U64.wrap (op_total ToLower "write" entries))).
  { unfold calculateBlockIO. fold entries.
    change (0, 0) with (U64.wrap 0, U64.wrap 0). rewrite blockio_loop.
    reflexivity. }
  assert (Hnn : forall label, 0 <= op_total ToLower label entries).
  { intros label. subst entries. clear Heq.
    induction Hwf as [|e l He _ IH].
    - unfold op_total. simpl. lia.
    - rewrite op_total_cons. unfold U64.in_range in He.
      destruct (decide (ToLower (Op e) = label)); lia. }
  split; [exact Heq|]. rewrite Heq. cbn [fst snd]. unfold U64.wrap.
  split; intros Hlt; apply Z.mod_small; split; auto.
Qed.

End BlockIO.

Lemma calculateBlockIO_totals_witness :
  calculateBlockIO ascii_to_lower example_stats = (10, 5).
Proof.
  destruct (calculateBlockIO_totals ascii_to_lower example_stats) as [H _].
  - cbv [example_stats mkStats IoServiceBytesRecursive BlkioStats_].
    repeat (apply List.Forall_cons; [split; [discriminate | reflexivity]|]).
    apply List.Forall_nil.
  - rewrite H. vm_compute. reflexivity.
Defined.

(** C4, counterexample. Two read entries of [2^63] bytes: the returned
    [blkRead] is 0, the sum of the byte values is [2^64]. *)
Lemma calculateBlockIO_wraps :
  fst (calculateBlockIO ascii_to_lower overflow_stats) = 0 /\
  op_total ascii_to_lower "read"
    (IoServiceBytesRecursive (BlkioStats_ overflow_stats)) = 2 ^ 64 /\
  fst (calculateBlockIO ascii_to_lower overflow_stats) <>
  op_total ascii_to_lower "read"
    (IoServiceBytesRecursive (BlkioStats_ overflow_stats)).
Proof. vm_compute. repeat split; discriminate. Qed.

(** ** Network totals *)

Lemma Zsum_perm (l l' : list Z) : l ≡ₚ l' -> Zsum l = Zsum l'.
Proof.
  induction 1 as [|x l l' _ IH|x y l|l l' l'' _ IH1 _ IH2]; simpl; lia.
Qed.

Lemma Zsum_nonneg (l : list Z) : Forall (fun x => 0 <= x) l -> 0 <= Zsum l.
Proof. induction 1; simpl; lia. Qed.

(** The loop keeps its two accumulators apart: each is the left-to-right
    binary64 sum of its own column. *)
Lemma network_loop (visit : list (string * NetworkStats)) (acc : F64.t * F64.t) :
  fold_left network_step visit acc =
  (fold_left F64.add (map (fun kv => F64.of_Z (rx_of kv)) visit) (fst acc),
   fold_left F64.add (map (fun kv => F64.of_Z (tx_of kv)) visit) (snd acc)).
Proof.
  revert acc. induction visit as [|kv visit IH]; intros [rx tx].
  - reflexivity.
  - cbn [fold_left map]. rewrite IH. reflexivity.
Qed.

(** A binary64 accumulation of integers is exact while the running total
    stays below [2^53]. *)
Lemma sum_of_Z_exact (l : list Z) (acc : Z) :
  0 <= acc -> Forall (fun x => 0 <= x) l -> acc + Zsum l < 2 ^ F64.prec ->
  fold_left F64.add (map F64.of_Z l) (F64.of_Z acc) = F64.of_Z (acc + Zsum l).
Proof.
  intros Hacc Hl. revert acc Hacc. induction Hl as [|x l Hx Hl IH]; intros acc Hacc Hlt.
  - simpl. now rewrite Z.add_0_r.
  - cbn [map fold_left Zsum foldr] in *. fold (Zsum l) in *.
    pose proof (Zsum_nonneg l Hl) as Hnn.
    rewrite F64Facts.add_of_Z by lia.
    rewrite IH by lia. f_equal. lia.
Qed.

(** C5, as amended. Whatever the interface names, their number and the
    order in which the map is visited, [calculateNetwork] returns the
    binary64 accumulation of the received bytes and, apart from it, that of
    the transmitted bytes over all entries of the map, in the order of the
    visit; a total below [2^53] is returned exactly, whatever the order. *)
Theorem calculateNetwork_totals (stats : StatsJSON)
  (visit : list (string * NetworkStats)) :
  range_of (Networks stats) visit ->
  Forall (fun kv => U64.in_range (RxBytes (snd kv))
                    /\ U64.in_range (TxBytes (snd kv))) visit ->
  calculateNetwork visit =
  (F64.sum (map (fun kv => F64.of_Z (RxBytes (snd kv))) visit),
   F64.sum (map (fun kv => F64.of_Z (TxBytes (snd kv))) visit)) /\
  (total_rx (Networks stats) < 2 ^ 53 ->
   fst (calculateNetwork visit) = F64.of_Z (total_rx (Networks stats))) /\
  (total_tx (Networks stats) < 2 ^ 53 ->
   snd (calculateNetwork visit) = F64.of_Z (total_tx (Networks stats))).
Proof.
  intros Hperm Hwf. unfold calculateNetwork. rewrite network_loop.
  split; [reflexivity|]. cbn [fst snd].
  assert (Hrx : total_rx (Networks stats) = Zsum (map rx_of visit)).
  { unfold total_rx. apply Zsum_perm. symmetry.
    apply (Permutation_map (fun kv => RxBytes (snd kv))). exact Hperm. }
  assert (Htx : total_tx (Networks stats) = Zsum (map tx_of visit)).
  { unfold total_tx. apply Zsum_perm. symmetry.
    apply (Permutation_map (fun kv => TxBytes (snd kv))). exact Hperm. }
  rewrite Hrx, Htx. split; intros Hlt.
  - rewrite <- (map_map rx_of F64.of_Z).
    change F64.zero with (F64.of_Z 0). rewrite sum_of_Z_exact; [reflexivity|lia| |exact Hlt].
    apply Forall_map. eapply Forall_impl; [exact Hwf|].
    intros kv [[H _] _]. exact H.
  - rewrite <- (map_map tx_of F64.of_Z).
    change F64.zero with (F64.of_Z 0). rewrite sum_of_Z_exact; [reflexivity|lia| |exact Hlt].
    apply Forall_map. eapply Forall_impl; [exact Hwf|].
    intros kv [_ [H _]]. exact H.
Qed.

Lemma calculateNetwork_totals_witness :
  calculateNetwork (map_to_list (Networks example_stats)) =
  (F64.of_Z 120, F64.of_Z 60).
Proof.
  destruct (calculateNetwork_totals example_stats
              (map_to_list (Networks example_stats))) as [H _].
  - unfold range_of. reflexivity.
  - let l := eval vm_compute in (map_to_list (Networks example_stats)) in
    change (map_to_list (Networks example_stats)) with l.
    repeat (apply List.Forall_cons;
            [split; (split; [discriminate | reflexivity])|]).
    apply List.Forall_nil.
  - rewrite H. vm_compute. reflexivity.
Defined.

(** C5, counterexample. Interfaces with [2^53], 1 and 1 received bytes,
    visited in that order: each addition of 1 rounds back to [2^53], and
    the result is [2^53] though the sum of the bytes, [2^53 + 2], is a
    binary64 number of its own. *)
Lemma calculateNetwork_rounds :
  range_of (Networks rounding_stats) [big_a; small_b; small_c] /\
  total_rx (Networks rounding_stats) = 2 ^ 53 + 2 /\
  fst (calculateNetwork [big_a; small_b; small_c]) = F64.of_Z (2 ^ 53) /\
  fst (calculateNetwork [big_a; small_b; small_c]) <>
  F64.of_Z (total_rx (Networks rounding_stats)).
Proof.
  split; [apply (bool_decide_unpack _); vm_compute; exact I|].
  split; [vm_compute; reflexivity|].
  split; [vm_compute; reflexivity|].
  vm_compute. discriminate.
Qed.

(** Above [2^53] the sum rounds, and then the visiting order shows. *)
Lemma calculateNetwork_order_sensitive :
  let a := ("a", {| RxBytes := 2 ^ 53; TxBytes := 0 |}) in
  let b := ("b", {| RxBytes := 1; TxBytes := 0 |}) in
  let c := ("c", {| RxBytes := 1; TxBytes := 0 |}) in
  fst (calculateNetwork [a; b; c]) = F64.of_Z (2 ^ 53) /\
  fst (calculateNetwork [b; c; a]) = F64.of_Z (2 ^ 53 + 2).
Proof. vm_compute. split; reflexivity. Qed.

(** ** [buildStats] *)

Section BuildStats.

Variable ToLower : string -> string.
Variable TruncateID : string -> string.

(** The percentage [buildStats] computes in line is that of
    [calculateMemPercentage]. *)
Lemma inline_memPercent (stats : StatsJSON) :
  (if negb (Limit (MemoryStats_ stats) =? 0) then
     F64.mul
       (F64.div (F64.of_Z (Usage (MemoryStats_ stats)))
          (F64.of_Z (Limit (MemoryStats_ stats))))
       F64.hundred
   else F64.zero) = calculateMemPercentage stats.
Proof. reflexivity. Qed.

(** After the first round of assignments the record already is the
    single-pass one, but for [PidsCurrent], still at its zero value. *)
Lemma buildStats_first_pass (container : Container) (stats : StatsJSON)
  (topResult : option ContainerProcessList)
  (visit : list (string * NetworkStats)) :
  buildStats_first ToLower TruncateID container stats topResult visit =
  set_PidsCurrent 0
    (single_pass ToLower TruncateID container stats topResult visit).
Proof.
  unfold buildStats_first, single_pass.
  destruct (calculateBlockIO ToLower stats) as [br bw]. reflexivity.
Qed.

(** C10. The record [buildStats] returns is the one a single pass computes,
    with the network totals of the second [range]; the first round of
    assignments has no part in it, and when both loops visit the map in the
    same order the second round only repeats the values of the first. *)
Theorem buildStats_single_pass (container : Container) (stats : StatsJSON)
  (topResult : option ContainerProcessList)
  (visit1 visit2 : list (string * NetworkStats)) :
  buildStats ToLower TruncateID container stats topResult visit1 visit2 =
  single_pass ToLower TruncateID container stats topResult visit2 /\
  buildStats ToLower TruncateID container stats topResult visit2 visit2 =
  set_PidsCurrent (Current (PidsStats_ stats))
    (buildStats_first ToLower TruncateID container stats topResult visit2).
Proof.
  unfold buildStats. rewrite !buildStats_first_pass, inline_memPercent.
  unfold single_pass.
  destruct (calculateBlockIO ToLower stats) as [blkRead blkWrite].
  split; reflexivity.
Qed.

End BuildStats.

(** The record for the snapshot of the examples. *)
Lemma buildStats_example :
  let s := buildStats ascii_to_lower (fun id => id) example_container
             example_stats None (map_to_list (Networks example_stats))
               (map_to_list (Networks example_stats)) in
  CPUPercentage s = F64.of_Z 100 /\ MemoryPercentage s = F64.of_Z 50 /\
  Memory s = F64.of_Z 500 /\ MemoryLimit s = F64.of_Z 1000 /\
  BlockRead s = F64.of_Z 10 /\ BlockWrite s = F64.of_Z 5 /\
  NetworkRx s = F64.of_Z 120 /\ NetworkTx s = F64.of_Z 60 /\
  PidsCurrent s = 3.
Proof. vm_compute. repeat split; reflexivity. Qed.

(** ** The sampling goroutine *)

Lemma count_app (f : action -> bool) (l l' : list action) :
  count f (l ++ l') = (count f l + count f l')%nat.
Proof. unfold count. now rewrite filter_app, length_app. Qed.

Section GoroutineFacts.

Variable ToLower : string -> string.
Variable TruncateID : string -> string.
Variable container : Container.

Local Abbreviation gstep := (step ToLower TruncateID container).
Local Abbreviation grun := (run ToLower TruncateID container).
Local Abbreviation ginv := (goroutine_inv ToLower TruncateID container).

Lemma buildStats_ProcessList (statsJSON : StatsJSON)
  (topResult : option ContainerProcessList)
  (visit1 visit2 : list (string * NetworkStats)) :
  ProcessList (buildStats ToLower TruncateID container statsJSON topResult
                 visit1 visit2) = topResult.
Proof.
  unfold buildStats, buildStats_first.
  destruct (calculateBlockIO ToLower statsJSON) as [br bw]. reflexivity.
Qed.

Lemma run_app (st : gstate) (evs evs' : list event) :
  grun st (evs ++ evs') =
  match grun st evs with
  | Some st' => grun st' evs'
  | None => None
  end.
Proof.
  revert st. induction evs as [|ev evs IH]; intros st; [reflexivity|].
  cbn [app run]. destruct (gstep st ev); [apply IH | reflexivity].
Qed.

Lemma init_inv : ginv (goroutine_init container).
Proof.
  unfold goroutine_init, goroutine_inv.
  destruct (Names container); simpl; (split; [intros x []|]); split; reflexivity.
Qed.

Ltac sends_case :=
  let y := fresh "y" in
  let Hy := fresh "Hy" in
  intros y Hy;
  repeat (apply in_app_or in Hy; destruct Hy as [Hy|Hy]);
  simpl in Hy;
  repeat match type of Hy with
         | _ \/ _ => destruct Hy as [Hy|Hy]
         | ActSend _ = ActSend _ => injection Hy as <-
         end;
  try discriminate; try contradiction; auto.

Lemma step_inv (st st' : gstate) (ev : event) :
  ginv st -> gstep st ev = Some st' -> ginv st'.
Proof.
  destruct st as [p d t]. unfold goroutine_inv, step.
  cbn [at_pc defers trace]. intros [Hs Hpc] Hstep.
  destruct p; destruct ev as [body_nil err|[|[snap|]]| | | |r v1 v2|];
    try discriminate; cbn in Hstep.
  1: { (* the stream is opened *)
    destruct Hpc as [-> ->].
    destruct body_nil; [|destruct err]; injection Hstep as <-; cbn;
      (split; [intros x Hx; intuition discriminate|]); repeat split; reflexivity. }
  all: try (destruct (visits_ok _ _ _); [|discriminate]).
  all: injection Hstep as <-; unfold do_return, goto, emit;
    cbn [at_pc defers trace];
    first [ destruct Hpc as (Hb & -> & Hcs & Hcb)
          | destruct Hpc as (-> & Hcs & Hcb) ];
    (split; [sends_case|]);
    rewrite ?count_app, ?Hcs, ?Hcb; repeat split; try reflexivity.
  exists statsJSON, r, v1, v2. reflexivity.
Qed.

Lemma run_inv (evs : list event) (st st' : gstate) :
  ginv st -> grun st evs = Some st' -> ginv st'.
Proof.
  revert st. induction evs as [|ev evs IH]; intros st Hinv Hrun; simpl in Hrun.
  - injection Hrun as <-. exact Hinv.
  - destruct (gstep st ev) as [st1|] eqn:Hstep; [|discriminate].
    eapply IH; [|exact Hrun]. eapply step_inv; eassumption.
Qed.

Lemma inv_counts_le (st : gstate) :
  ginv st ->
  (count is_close_stats (trace st) <= 1)%nat /\
  (count is_close_body (trace st) <= 1)%nat.
Proof.
  intros [_ H]. destruct (at_pc st);
    try (destruct H as (_ & -> & ->); lia);
    try (destruct H as (_ & _ & -> & ->); lia).
  - destruct H as (_ & ->). split; cbn; lia.
  - destruct H as (-> & ->). lia.
  - destruct H as (-> & ->). lia.
Qed.

(** C7. In every run of the goroutine the output channel and the stream
    body are each closed at most once; while the loop runs neither is
    closed, and each way out the specification lists (a decode error or
    EOF, a request on [done], the context ending) is taken at once and
    leaves the goroutine returned with each closed exactly once; what was
    sent on the channel before are records made by [buildStats], no error
    value. *)
Theorem sampling_loop_exits (evs : list event) (st : gstate) :
  grun (goroutine_init container) evs = Some st ->
  ((count is_close_stats (trace st) <= 1)%nat /\
   (count is_close_body (trace st) <= 1)%nat) /\
  (at_pc st = PcExited ->
   count is_close_stats (trace st) = 1%nat /\
   count is_close_body (trace st) = 1%nat) /\
  (running (at_pc st) = true ->
   count is_close_stats (trace st) = 0%nat /\
   count is_close_body (trace st) = 0%nat /\
   forall ev, exit_event (at_pc st) ev = true ->
     exists st', gstep st ev = Some st' /\ at_pc st' = PcExited /\
       count is_close_stats (trace st') = 1%nat /\
       count is_close_body (trace st') = 1%nat) /\
  (forall x, In (ActSend x) (trace st) ->
     is_built ToLower TruncateID container x).
Proof.
  intros Hrun. pose proof (run_inv evs _ _ init_inv Hrun) as Hinv.
  split; [exact (inv_counts_le st Hinv)|].
  split; [|split].
  - intros Hpc. destruct Hinv as [_ H]. rewrite Hpc in H. exact H.
  - intros Hr.
    assert (H0 : count is_close_stats (trace st) = 0%nat /\
                 count is_close_body (trace st) = 0%nat).
    { destruct Hinv as [_ H]. destruct (at_pc st); try discriminate;
        try (destruct H as (_ & H1 & H2); split; assumption).
      destruct H as (_ & _ & H1 & H2). split; assumption. }
    destruct H0 as [Hcs Hcb]. split; [exact Hcs|]. split; [exact Hcb|].
    intros ev Hev.
    assert (Hex : exists st', gstep st ev = Some st' /\ at_pc st' = PcExited).
    { unfold step.
      destruct (at_pc st); try discriminate;
        destruct ev as [? ?|[|?]| | | |? ? ?|]; try discriminate;
        eexists; split; reflexivity. }
    destruct Hex as (st' & Hstep & Hpc'). exists st'.
    split; [exact Hstep|]. split; [exact Hpc'|].
    pose proof (step_inv _ _ _ Hinv Hstep) as [_ H']. rewrite Hpc' in H'.
    exact H'.
  - destruct Hinv as [H _]. exact H.
Qed.

(** C8, as amended. A request on [done] is taken only while the goroutine
    waits at the [select]. There the [done] case can be taken, and when
    the [select] takes it the goroutine calls [cancel], returns, closes the
    output channel and then the stream body; the [select] can as well take
    a tick, which starts the next decode with nothing cancelled or closed.
    While a decode is in flight nothing but the return of that decode
    moves the goroutine. *)
Theorem cancellation_taken_at_select (evs : list event) (st : gstate) :
  grun (goroutine_init container) evs = Some st ->
  (forall st', gstep st EvDone = Some st' ->
     at_pc st = PcSelect /\ at_pc st' = PcExited /\
     trace st' = trace st ++ [ActCancel; ActCloseStats; ActCloseBody]) /\
  (at_pc st = PcSelect ->
   (exists st', gstep st EvDone = Some st') /\
   (exists st', gstep st EvTick = Some st' /\
      decode_in_flight (at_pc st') = true /\ trace st' = trace st)) /\
  (decode_in_flight (at_pc st) = true ->
   forall ev st', gstep st ev = Some st' ->
     (exists r, ev = EvDecode r) /\ count is_cancel (trace st') = 0%nat).
Proof.
  intros Hrun. pose proof (run_inv evs _ _ init_inv Hrun) as [_ Hinv].
  assert (Hnc : forall evs st0 st1, grun st0 evs = Some st1 ->
                  at_pc st1 <> PcExited ->
                  count is_cancel (trace st0) = 0%nat ->
                  count is_cancel (trace st1) = 0%nat).
  { clear. intros evs. induction evs as [|ev evs IH]; intros st0 st1 Hrun Hne H0.
    - injection Hrun as <-. exact H0.
    - simpl in Hrun. destruct (gstep st0 ev) as [st2|] eqn:Hstep; [|discriminate].
      assert (Hpc2 : at_pc st2 <> PcExited).
      { intros Hex. destruct evs as [|ev' evs'].
        - injection Hrun as <-. contradiction.
        - simpl in Hrun. unfold step in Hrun. rewrite Hex in Hrun.
          discriminate. }
      apply (IH st2 st1 Hrun Hne).
      unfold step in Hstep.
      destruct (at_pc st0) eqn:Hp0;
        destruct ev as [b e|[|[?|]]| | | |? ? ?|]; try discriminate;
        try (destruct b; [|destruct e]);
        try (destruct (visits_ok _ _ _); [|discriminate]);
        injection Hstep as <-;
        unfold do_return, goto, emit, push_defer, panic in *;
        cbn [at_pc defers trace] in *; try contradiction;
        rewrite ?count_app, ?H0; reflexivity. }
  split; [|split].
  - intros st' Hstep. unfold step in Hstep.
    destruct (at_pc st) eqn:Hpc; try discriminate.
    injection Hstep as <-. destruct Hinv as (Hd & _ & _).
    unfold do_return, emit. cbn [at_pc defers trace]. rewrite Hd.
    repeat split. now rewrite <- app_assoc.
  - intros Hpc. unfold step. rewrite Hpc.
    split; eexists; [reflexivity|]. repeat split.
  - intros Hdec ev st' Hstep.
    assert (Hc0 : count is_cancel (trace st) = 0%nat).
    { apply (Hnc evs (goroutine_init container) st Hrun).
      - intros Hex. rewrite Hex in Hdec. discriminate.
      - unfold goroutine_init. destruct (Names container); reflexivity. }
    unfold step in Hstep.
    destruct (at_pc st) eqn:Hpc; try discriminate;
      destruct ev as [? ?|[|[?|]]| | | |? ? ?|]; try discriminate;
      (split; [eexists; reflexivity|]);
      injection Hstep as <-; unfold do_return, goto;
      cbn [at_pc defers trace]; destruct Hinv as (Hd & _ & _);
      rewrite ?Hd, ?count_app, ?Hc0; reflexivity.
Qed.

Lemma buildStats_record (statsJSON : StatsJSON)
  (topResult : option ContainerProcessList)
  (visit1 visit2 : list (string * NetworkStats)) :
  buildStats ToLower TruncateID container statsJSON topResult visit1 visit2 =
  single_pass ToLower TruncateID container statsJSON topResult visit2.
Proof.
  unfold buildStats, buildStats_first, single_pass.
  destruct (calculateBlockIO ToLower statsJSON) as [blkRead blkWrite].
  reflexivity.
Qed.

Lemma visits_ok_intro (statsJSON : StatsJSON)
  (visit1 visit2 : list (string * NetworkStats)) :
  range_of (Networks statsJSON) visit1 ->
  range_of (Networks statsJSON) visit2 ->
  visits_ok statsJSON visit1 visit2 = true.
Proof.
  intros H1 H2. unfold visits_ok.
  now rewrite !bool_decide_eq_true_2.
Qed.

(** C9. A tick whose decode succeeds with a snapshot runs to its end
    whatever the process-list query answers: after the query the goroutine
    stands at the send with nothing closed, the consumer receives one
    record, and the loop is back at its [select] with the deferred calls
    still pending. The record carries every metric of the snapshot; its
    process list is the value the query handed back, the empty list when
    the query failed. *)
Theorem top_failure_keeps_tick (st : gstate) (statsJSON : StatsJSON)
  (r : TopResult) (visit1 visit2 : list (string * NetworkStats)) :
  at_pc st = PcTickDecode ->
  range_of (Networks statsJSON) visit1 ->
  range_of (Networks statsJSON) visit2 ->
  exists x st2 st3,
    x = single_pass ToLower TruncateID container statsJSON
          (Some (top_value r)) visit2 /\
    grun st [EvDecode (DecOk (Some statsJSON)); EvTop r visit1 visit2]
    = Some st2 /\
    at_pc st2 = PcSend x /\ trace st2 = trace st /\
    defers st2 = defers st /\
    gstep st2 EvRecv = Some st3 /\
    at_pc st3 = PcSelect /\ trace st3 = trace st ++ [ActSend x] /\
    defers st3 = defers st /\
    ProcessList x = Some (top_value r) /\
    (r = TopErr -> ProcessList x = Some emptyProcessList).
Proof.
  intros Hpc H1 H2.
  eexists. eexists. eexists. split; [reflexivity|].
  split.
  { unfold run, step. rewrite Hpc. cbn [goto at_pc].
    rewrite (visits_ok_intro _ _ _ H1 H2), buildStats_record. reflexivity. }
  cbn [goto at_pc trace defers].
  split; [reflexivity|]. split; [reflexivity|]. split; [reflexivity|].
  split; [reflexivity|]. cbn [goto emit at_pc trace defers].
  split; [reflexivity|]. split; [reflexivity|]. split; [reflexivity|].
  split; [reflexivity|]. intros ->. reflexivity.
Qed.

End GoroutineFacts.

Lemma sampling_loop_exits_witness :
  exists st,
    run ascii_to_lower (fun id => id) example_container
      (goroutine_init example_container)
      [EvOpen false false; EvDecode (DecOk (Some example_stats)); EvTick;
       EvDecode DecErr] = Some st /\
    count is_close_stats (trace st) = 1%nat /\
    count is_close_body (trace st) = 1%nat.
Proof.
  eexists. split; [reflexivity|].
  destruct (sampling_loop_exits ascii_to_lower (fun id => id)
              example_container
              [EvOpen false false; EvDecode (DecOk (Some example_stats));
               EvTick; EvDecode DecErr] _ eq_refl) as (_ & H & _).
  apply H. reflexivity.
Defined.

(** C8, counterexample. The stream is open, the first snapshot is decoded,
    a tick has started the next decode: in that state a request on [done]
    is not taken, nothing has been cancelled, and only the return of the
    decode lets the goroutine go on. *)
Lemma done_not_taken_during_decode :
  exists st,
    run ascii_to_lower (fun id => id) example_container
      (goroutine_init example_container)
      [EvOpen false false; EvDecode (DecOk (Some example_stats)); EvTick]
    = Some st /\
    decode_in_flight (at_pc st) = true /\
    step ascii_to_lower (fun id => id) example_container st EvDone = None /\
    count is_cancel (trace st) = 0%nat.
Proof. eexists. repeat split. Qed.

Lemma cancellation_taken_at_select_witness :
  exists st st',
    run ascii_to_lower (fun id => id) example_container
      (goroutine_init example_container)
      [EvOpen false false; EvDecode (DecOk (Some example_stats))] = Some st /\
    step ascii_to_lower (fun id => id) example_container st EvDone = Some st' /\
    trace st' = [ActCancel; ActCloseStats; ActCloseBody].
Proof.
  eexists. eexists. split; [reflexivity|]. split; [reflexivity|].
  destruct (cancellation_taken_at_select ascii_to_lower (fun id => id)
              example_container
              [EvOpen false false; EvDecode (DecOk (Some example_stats))]
              _ eq_refl) as (H & _).
  destruct (H _ eq_refl) as (_ & _ & Ht). exact Ht.
Defined.

Lemma top_failure_keeps_tick_witness :
  exists x st3,
    run ascii_to_lower (fun id => id) example_container tick_state
      [EvDecode (DecOk (Some example_stats));
       EvTop TopErr (map_to_list (Networks example_stats))
         (map_to_list (Networks example_stats));
       EvRecv] = Some st3 /\
    at_pc st3 = PcSelect /\ trace st3 = [ActSend x] /\
    ProcessList x = Some emptyProcessList /\
    NetworkRx x = F64.of_Z 120 /\ NetworkTx x = F64.of_Z 60.
Proof.
  assert (Hr : range_of (Networks example_stats)
                 (map_to_list (Networks example_stats)))
    by (unfold range_of; reflexivity).
  destruct (top_failure_keeps_tick ascii_to_lower (fun id => id)
              example_container tick_state example_stats TopErr
              (map_to_list (Networks example_stats))
              (map_to_list (Networks example_stats)) eq_refl Hr Hr)
    as (x & st2 & st3 & Hx & Hrun & _ & _ & _ & Hstep & Hpc & Ht & _ & _ & Hp).
  exists x, st3. split.
  { change [EvDecode (DecOk (Some example_stats));
            EvTop TopErr (map_to_list (Networks example_stats))
              (map_to_list (Networks example_stats)); EvRecv]
      with ([EvDecode (DecOk (Some example_stats));
             EvTop TopErr (map_to_list (Networks example_stats))
               (map_to_list (Networks example_stats))] ++ [EvRecv]).
    rewrite run_app, Hrun. cbn [run]. rewrite Hstep. reflexivity. }
  split; [exact Hpc|]. split; [exact Ht|]. split; [exact (Hp eq_refl)|].
  rewrite Hx. split; vm_compute; reflexivity.
Defined.

(** ** [NewStatsChannel] *)

(** C6. For a container that is not running [NewStatsChannel] returns the
    container with both channels nil, makes no channel and starts no
    goroutine: the run-time state is unchanged. *)
Theorem NewStatsChannel_not_running (IsContainerRunning : Container -> bool)
  (container : Container) (rt : runtime) :
  IsContainerRunning container = false ->
  NewStatsChannel IsContainerRunning container rt =
  ({| StatsChannel.Container := container;
      StatsChannel.Stats := None;
      StatsChannel.Done := None |}, rt).
Proof. intros H. unfold NewStatsChannel. now rewrite H. Qed.

Lemma NewStatsChannel_not_running_witness :
  NewStatsChannel (fun _ => false) example_container empty_runtime =
  ({| StatsChannel.Container := example_container;
      StatsChannel.Stats := None;
      StatsChannel.Done := None |}, empty_runtime).
Proof.
  apply (NewStatsChannel_not_running (fun _ => false) example_container
           empty_runtime).
  reflexivity.
Defined.

(** For a running container both channels are made, distinct, and one
    goroutine is started on them. *)
Lemma NewStatsChannel_running (IsContainerRunning : Container -> bool)
  (container : Container) (rt : runtime) :
  IsContainerRunning container = true ->
  exists stats done,
    stats <> done /\
    fst (NewStatsChannel IsContainerRunning container rt) =
    {| StatsChannel.Container := container;
       StatsChannel.Stats := Some stats;
       StatsChannel.Done := Some done |} /\
    goroutines (snd (NewStatsChannel IsContainerRunning container rt)) =
    (stats, done, goroutine_init container) :: goroutines rt.
Proof.
  intros H. unfold NewStatsChannel. rewrite H.
  exists (next_chan rt), (S (next_chan rt)). cbn. repeat split. lia.
Qed.

(** ** Further properties of the sampling goroutine *)

Section GoroutineTraces.

Variable ToLower : string -> string.
Variable TruncateID : string -> string.
Variable container : Container.

Local Abbreviation tstep := (step ToLower TruncateID container).
Local Abbreviation trun := (run ToLower TruncateID container).

(** The shape of the trace wherever the goroutine stands. *)
Lemma trace_shape_step (st st' : gstate) (ev : event) :
  (Forall (fun a => is_send a = true) (trace st) /\
   (at_pc st <> PcExited) /\
   (running (at_pc st) = true -> defers st = [ActCloseStats; ActCloseBody]) /\
   (running (at_pc st) = false -> defers st = [])) ->
  tstep st ev = Some st' ->
  (Forall (fun a => is_send a = true) (trace st') /\
   (at_pc st' <> PcExited) /\
   (running (at_pc st') = true -> defers st' = [ActCloseStats; ActCloseBody]) /\
   (running (at_pc st') = false -> defers st' = [])) \/
  (at_pc st' = PcExited /\
   exists sends, Forall (fun a => is_send a = true) sends /\
     trace st' = sends ++ closing (is_done ev)).
Proof.
  destruct st as [p d t]. unfold step, closing. cbn [at_pc defers trace].
  intros (Hs & Hne & Hrun & Hnot) Hstep.
  destruct p; destruct ev as [body_nil err|[|[snap|]]| | | |r v1 v2|];
    try discriminate; cbn in Hstep.
  1: { rewrite (Hnot eq_refl) in Hstep.
       destruct body_nil; [|destruct err]; injection Hstep as <-; cbn.
       - left. repeat split; auto. discriminate.
       - right. split; [reflexivity|]. exists t. split; [exact Hs|].
         reflexivity.
       - left. repeat split; auto. discriminate. }
  all: try (destruct (visits_ok _ _ _); [|discriminate]).
  all: try (rewrite (Hrun eq_refl)); injection Hstep as <-;
    unfold do_return, goto, emit; cbn [at_pc defers trace is_done app].
  all: try (left; repeat split;
            [ try assumption | discriminate | intros _; auto | discriminate ];
            fail).
  all: try (right; split; [reflexivity|]; exists t; split; [exact Hs|];
            rewrite ?(Hrun eq_refl), <- ?app_assoc; reflexivity).
  left. repeat split; try discriminate; auto.
  apply Forall_app. split; [exact Hs|]. repeat constructor.
Qed.

(** X1. Every trace is a run of sends, followed once the goroutine has
    returned by [close(stats)] and [responseBody.Close()], in that order,
    with [cancel()] just before them exactly when the goroutine returned on
    a [done] request, the last event of the schedule: nothing is sent on the
    closed channel, and the context is cancelled at most once and only on
    the way out. *)
Theorem trace_shape (evs : list event) (st : gstate) :
  trun (goroutine_init container) evs = Some st ->
  exists sends,
    Forall (fun a => is_send a = true) sends /\
    (at_pc st <> PcExited -> trace st = sends) /\
    (at_pc st = PcExited ->
     trace st =
     sends ++ (if ended_on_done evs then [ActCancel] else [])
           ++ [ActCloseStats; ActCloseBody]) /\
    (count is_cancel (trace st) =
     if ended_on_done evs then 1%nat else 0%nat).
Proof.
  assert (Hnocancel : forall sends,
            Forall (fun a => is_send a = true) sends ->
            count is_cancel sends = 0%nat).
  { clear. induction 1 as [|a l Ha _ IH]; [reflexivity|].
    unfold count in *. rewrite filter_cons.
    destruct (decide (is_cancel a = true)) as [Hc|_]; [|exact IH].
    destruct a; discriminate. }
  assert (Hgen : forall evs st0 st1,
    (Forall (fun a => is_send a = true) (trace st0) /\
     (at_pc st0 <> PcExited) /\
     (running (at_pc st0) = true -> defers st0 = [ActCloseStats; ActCloseBody]) /\
     (running (at_pc st0) = false -> defers st0 = [])) ->
    trun st0 evs = Some st1 ->
    (at_pc st1 <> PcExited /\
     Forall (fun a => is_send a = true) (trace st1) /\
     (forall ev, last evs = Some ev -> is_done ev = false)) \/
    (at_pc st1 = PcExited /\
     exists sends, Forall (fun a => is_send a = true) sends /\
       trace st1 = sends ++ closing (ended_on_done evs))).
  { clear evs st. intros evs. induction evs as [|ev evs IH]; intros st0 st1 H0 Hrun.
    - injection Hrun as <-. destruct H0 as (Hs & Hne & _).
      left. split; [exact Hne|]. split; [exact Hs|]. intros ev; discriminate.
    - simpl in Hrun. destruct (tstep st0 ev) as [st2|] eqn:Hstep; [|discriminate].
      destruct (trace_shape_step st0 st2 ev H0 Hstep) as [H2|(Hex & sends & Hs & Ht)].
      + destruct evs as [|ev' evs'].
        * injection Hrun as <-. destruct H2 as (Hs2 & Hne2 & _).
          left. split; [exact Hne2|]. split; [exact Hs2|].
          intros ev0 Hl. injection Hl as <-.
          destruct ev; try reflexivity.
          (* a [done] request taken: the goroutine has returned *)
          exfalso. apply Hne2. unfold step in Hstep.
          destruct (at_pc st0); try discriminate.
          injection Hstep as <-. reflexivity.
        * destruct (IH st2 st1 H2 Hrun) as [(Hne1 & Hs1 & Hl1)|(Hex1 & sends & Hs1 & Ht1)].
          -- left. split; [exact Hne1|]. split; [exact Hs1|]. exact Hl1.
          -- right. split; [exact Hex1|]. exists sends. split; [exact Hs1|].
             exact Ht1.
      + destruct evs as [|ev' evs'].
        * injection Hrun as <-. right. split; [exact Hex|].
          exists sends. split; [exact Hs|]. exact Ht.
        * simpl in Hrun. unfold step in Hrun. rewrite Hex in Hrun. discriminate. }
  intros Hrun.
  destruct (Hgen evs (goroutine_init container) st) as
    [(Hne & Hs & Hl)|(Hex & sends & Hs & Ht)]; [|exact Hrun| |].
  - unfold goroutine_init. destruct (Names container); cbn;
      repeat split; auto; discriminate.
  - exists (trace st). split; [exact Hs|]. split; [reflexivity|].
    split; [intros Hex; contradiction|].
    rewrite (Hnocancel _ Hs). unfold ended_on_done.
    destruct (last evs) as [ev|]; [|reflexivity]. now rewrite (Hl ev eq_refl).
  - exists sends. split; [exact Hs|].
    split; [intros Hne; contradiction|]. split; [intros _; exact Ht|].
    rewrite Ht, count_app, (Hnocancel _ Hs). unfold closing.
    destruct (ended_on_done evs); reflexivity.
Qed.

Lemma count_send_app (l l' : list action) :
  count is_send (l ++ l') = (count is_send l + count is_send l')%nat.
Proof. unfold count. now rewrite filter_app, length_app. Qed.

Lemma count_send_none (l : list action) :
  Forall (fun a => is_send a = false) l -> count is_send l = 0%nat.
Proof.
  unfold count. induction 1 as [|a l Ha _ IH]; [reflexivity|].
  rewrite filter_cons. destruct (decide (is_send a = true)); [congruence|].
  exact IH.
Qed.

Lemma step_counts (st st' : gstate) (ev : event) :
  Forall (fun a => is_send a = false) (defers st) ->
  tstep st ev = Some st' ->
  Forall (fun a => is_send a = false) (defers st') /\
  (count is_send (trace st') + pending (at_pc st') <=
   count is_send (trace st) + pending (at_pc st)
   + (if is_tick ev then 1 else 0))%nat /\
  count is_send (trace st') =
  (count is_send (trace st) + (if is_recv ev then 1 else 0))%nat.
Proof.
  destruct st as [p d t]. unfold step. cbn [at_pc defers trace].
  intros Hd Hstep. pose proof (count_send_none d Hd) as Hd0.
  destruct p; destruct ev as [body_nil err|[|[snap|]]| | | |r v1 v2|];
    try discriminate; cbn in Hstep;
    try (destruct body_nil; [|destruct err]);
    try (destruct (visits_ok _ _ _); [|discriminate]);
    injection Hstep as <-;
    unfold do_return, goto, emit, push_defer, panic; cbn [at_pc defers trace];
    unfold pending; cbn [in_tick is_tick is_recv];
    rewrite ?count_send_app, ?Hd0;
    (split; [first [ exact Hd | apply List.Forall_nil
                   | repeat (apply List.Forall_cons; [reflexivity|]); exact Hd ]|]);
    change (count is_send [ActCancel]) with 0%nat;
    try change (count is_send [ActSend x]) with 1%nat;
    try change (count is_send (ActCloseStats :: ActCloseBody :: d))
          with (count is_send d);
    rewrite ?Hd0; lia.
Qed.

(** X2. The channel is unbuffered and each tick sends at most one record:
    the records sent are as many as the consumer received, and with the
    one the current tick may still send they never outnumber the ticks.
    The snapshot decoded before the loop is not sent. *)
Theorem one_record_per_tick (evs : list event) (st : gstate) :
  trun (goroutine_init container) evs = Some st ->
  count is_send (trace st) = count_ev is_recv evs /\
  (count is_send (trace st) + pending (at_pc st) <= count_ev is_tick evs)%nat.
Proof.
  assert (Hgen : forall evs st0 st1,
    Forall (fun a => is_send a = false) (defers st0) ->
    trun st0 evs = Some st1 ->
    count is_send (trace st1) =
    (count is_send (trace st0) + count_ev is_recv evs)%nat /\
    (count is_send (trace st1) + pending (at_pc st1) <=
     count is_send (trace st0) + pending (at_pc st0)
     + count_ev is_tick evs)%nat).
  { clear evs st. intros evs. induction evs as [|ev evs IH]; intros st0 st1 H0 Hrun.
    - injection Hrun as <-. unfold count_ev. simpl. lia.
    - simpl in Hrun. destruct (tstep st0 ev) as [st2|] eqn:Hstep; [|discriminate].
      destruct (step_counts st0 st2 ev H0 Hstep) as (H2 & Hle & Heq).
      destruct (IH st2 st1 H2 Hrun) as [IHeq IHle].
      unfold count_ev in *. rewrite !filter_cons.
      destruct ev; cbn [is_tick is_recv] in *;
        repeat match goal with
               | |- context [decide ?P] => destruct (decide P); try congruence
               end; cbn [length]; lia. }
  intros Hrun.
  destruct (Hgen evs (goroutine_init container) st) as [Heq Hle];
    [|exact Hrun|].
  - unfold goroutine_init. destruct (Names container); constructor.
  - assert (H0 : count is_send (trace (goroutine_init container)) = 0%nat
                 /\ pending (at_pc (goroutine_init container)) = 0%nat).
    { unfold goroutine_init. destruct (Names container); split; reflexivity. }
    destruct H0 as [Ht Hp]. rewrite Ht, Hp in *. split; lia.
Qed.

End GoroutineTraces.

Lemma trace_shape_witness :
  exists st x,
    run ascii_to_lower (fun id => id) example_container
      (goroutine_init example_container) example_run = Some st /\
    trace st = [ActSend x; ActCancel; ActCloseStats; ActCloseBody].
Proof.
  assert (Hrun : exists st,
            run ascii_to_lower (fun id => id) example_container
              (goroutine_init example_container) example_run = Some st /\
            at_pc st = PcExited /\
            exists x, filter (fun a => is_send a = true) (trace st)
                      = [ActSend x]).
  { vm_compute. eexists. split; [reflexivity|]. split; [reflexivity|].
    eexists. reflexivity. }
  destruct Hrun as (st & Hrun & Hex & x & Hx).
  destruct (trace_shape ascii_to_lower (fun id => id) example_container
              example_run st Hrun) as (sends & Hs & _ & Ht & _).
  exists st, x. split; [exact Hrun|].
  rewrite (Ht Hex) in Hx |- *.
  change (ended_on_done example_run) with true in *. cbn [app] in *.
  rewrite filter_app in Hx.
  replace (filter (fun a => is_send a = true) sends) with sends in Hx.
  - change (filter (fun a => is_send a = true)
              [ActCancel; ActCloseStats; ActCloseBody]) with (@nil action) in Hx.
    rewrite app_nil_r in Hx. rewrite Hx. reflexivity.
  - symmetry. clear -Hs. induction Hs as [|a l Ha _ IH]; [reflexivity|].
    rewrite filter_cons. destruct (decide (is_send a = true)); congruence.
Defined.

Lemma one_record_per_tick_witness :
  exists st,
    run ascii_to_lower (fun id => id) example_container
      (goroutine_init example_container) example_run = Some st /\
    count is_send (trace st) = 1%nat.
Proof.
  eexists. split; [reflexivity|].
  destruct (one_record_per_tick ascii_to_lower (fun id => id)
              example_container example_run _ eq_refl) as [Heq _].
  exact Heq.
Defined.

(** ** Further properties of the block I/O totals *)

Section BlockIOExtra.

Variable ToLower : string -> string.

Lemma op_total_app (label : string) (l l' : list BlkioStatEntry) :
  op_total ToLower label (l ++ l') =
  op_total ToLower label l + op_total ToLower label l'.
Proof.
  induction l as [|e l IH]; [reflexivity|].
  cbn [app]. rewrite !op_total_cons, IH. lia.
Qed.

Lemma op_total_perm (label : string) (l l' : list BlkioStatEntry) :
  l ≡ₚ l' -> op_total ToLower label l = op_total ToLower label l'.
Proof.
  induction 1 as [|e l l' _ IH|e e' l|l l' l'' _ IH1 _ IH2];
    rewrite ?op_total_cons; lia.
Qed.

Lemma calculateBlockIO_wrap (stats : StatsJSON) :
  calculateBlockIO ToLower stats =
  (U64.wrap (op_total ToLower "read" (IoServiceBytesRecursive (BlkioStats_ stats))),
   U64.wrap (op_total ToLower "write" (IoServiceBytesRecursive (BlkioStats_ stats)))).
Proof.
  unfold calculateBlockIO. change (0, 0) with (U64.wrap 0, U64.wrap 0).
  rewrite blockio_loop. reflexivity.
Qed.

(** X3. The block I/O totals do not depend on the order of the entries. *)
Theorem calculateBlockIO_perm (stats stats' : StatsJSON) :
  IoServiceBytesRecursive (BlkioStats_ stats) ≡ₚ
  IoServiceBytesRecursive (BlkioStats_ stats') ->
  calculateBlockIO ToLower stats = calculateBlockIO ToLower stats'.
Proof.
  intros Hp. rewrite !calculateBlockIO_wrap.
  now rewrite (op_total_perm "read" _ _ Hp), (op_total_perm "write" _ _ Hp).
Qed.

(** X4. The totals of a snapshot whose entries are those of two others, one
    after the other, are the [uint64] sums of their totals. *)
Theorem calculateBlockIO_app (stats stats1 stats2 : StatsJSON) :
  IoServiceBytesRecursive (BlkioStats_ stats) =
  IoServiceBytesRecursive (BlkioStats_ stats1) ++
  IoServiceBytesRecursive (BlkioStats_ stats2) ->
  calculateBlockIO ToLower stats =
  (U64.add (fst (calculateBlockIO ToLower stats1))
     (fst (calculateBlockIO ToLower stats2)),
   U64.add (snd (calculateBlockIO ToLower stats1))
     (snd (calculateBlockIO ToLower stats2))).
Proof.
  intros He. rewrite !calculateBlockIO_wrap, He, !op_total_app. cbn [fst snd].
  unfold U64.add, U64.wrap.
  rewrite <- !Z.add_mod by (unfold U64.modulus; lia). reflexivity.
Qed.

End BlockIOExtra.

Lemma calculateBlockIO_perm_witness :
  calculateBlockIO ascii_to_lower
    (stats_with_blkio [ {| Op := "WRITE"; Value := 5 |};
                        {| Op := "Read"; Value := 10 |} ]) =
  calculateBlockIO ascii_to_lower
    (stats_with_blkio [ {| Op := "Read"; Value := 10 |};
                        {| Op := "WRITE"; Value := 5 |} ]).
Proof.
  apply (calculateBlockIO_perm ascii_to_lower). simpl. apply perm_swap.
Defined.

Lemma calculateBlockIO_app_witness :
  calculateBlockIO ascii_to_lower
    (stats_with_blkio [ {| Op := "Read"; Value := 2 ^ 63 |};
                        {| Op := "read"; Value := 2 ^ 63 |} ]) =
  (U64.add (2 ^ 63) (2 ^ 63), U64.add 0 0).
Proof.
  apply (calculateBlockIO_app ascii_to_lower
           (stats_with_blkio [ {| Op := "Read"; Value := 2 ^ 63 |};
                               {| Op := "read"; Value := 2 ^ 63 |} ])
           (stats_with_blkio [ {| Op := "Read"; Value := 2 ^ 63 |} ])
           (stats_with_blkio [ {| Op := "read"; Value := 2 ^ 63 |} ])).
  reflexivity.
Defined.

(** ** The grid *)

Lemma I64_wrap_small (z : Z) : I64.in_range z -> I64.wrap z = z.
Proof.
  unfold I64.in_range, I64.min_int, I64.max_int, I64.wrap. intros Hz.
  rewrite Z.mod_small by lia. lia.
Qed.

Lemma I64_add_wrap_l (a b : Z) : I64.add (I64.wrap a) b = I64.wrap (a + b).
Proof.
  unfold I64.add, I64.wrap.
  replace (a + 2 ^ 63) with (a + 2 ^ 63 + 0) by lia.
  replace ((a + 2 ^ 63 + 0) mod 2 ^ 64 - 2 ^ 63 + b + 2 ^ 63)
    with ((a + 2 ^ 63 + 0) mod 2 ^ 64 + b) by lia.
  rewrite Z.add_mod_idemp_l by lia. f_equal. f_equal. lia.
Qed.

Section GridPages.

Import termui.

(** The window [pageRows] picks, as bounds into the rows. *)
Lemma pageRows_bounds (g : Grid) :
  wf g -> 2 <= Height g ->
  Offset g < Slice.len (rows g) \/ Offset g <= 0 ->
  let n := Z.min (Slice.len (rows g)) (Height g - 1) in
  let start := Z.max 0 (Offset g + 1 - (Height g - 1)) in
  pageRows g =
  Some (take (Z.to_nat n) (drop (Z.to_nat start) (Slice.elems (rows g)))) /\
  start + n <= Slice.len (rows g).
Proof.
  intros (Hlen & Hcap & Hh & Ho & _) H2 Hoff n start.
  unfold pageRows, GetHeight, I64.sub. unfold Slice.len in *.
  assert (Hav : I64.wrap (Height g - 1) = Height g - 1).
  { apply I64_wrap_small. unfold I64.in_range, I64.min_int, I64.max_int in *. lia. }
  rewrite Hav.
  destruct (Z.ltb_spec (Z.of_nat (length (Slice.elems (rows g)))) (Height g - 1))
    as [Hlt|Hge].
  - (* fewer rows than lines: all of them *)
    subst n start. rewrite Z.min_l, Z.max_l by lia.
    rewrite Nat2Z.id. cbn [drop Z.to_nat]. rewrite firstn_all. split; [reflexivity|lia].
  - subst n. rewrite Z.min_r by lia.
    assert (Hoff' : Offset g < Z.of_nat (length (Slice.elems (rows g))))
      by (destruct Hoff; lia).
    clear Hoff. rename Hoff' into Hoff.
    assert (Ho1 : I64.add (Offset g) 1 = Offset g + 1).
    { apply I64_wrap_small.
      unfold I64.in_range, I64.min_int, I64.max_int in *. lia. }
    assert (Hres : forall low,
      0 <= low -> low + (Height g - 1) <= Z.of_nat (length (Slice.elems (rows g))) ->
      Slice.reslice None (rows g) low (low + (Height g - 1)) =
      Some (take (Z.to_nat (Height g - 1))
              (drop (Z.to_nat low) (Slice.elems (rows g))))).
    { intros low Hl Hh'. unfold Slice.reslice.
      destruct (Z.leb_spec 0 low); [|lia].
      destruct (Z.leb_spec low (low + (Height g - 1))); [|lia].
      destruct (Z.leb_spec (low + (Height g - 1)) (Z.of_nat (Slice.cap (rows g))));
        [|lia].
      cbn [andb]. f_equal. unfold Slice.slots.
      replace (low + (Height g - 1) - low) with (Height g - 1) by lia.
      rewrite drop_app_le by lia. rewrite take_app_le; [reflexivity|].
      rewrite length_drop. lia. }
    destruct (Z.ltb_spec (Height g - 1) (Offset g)) as [Hgt|Hle].
    + rewrite Ho1.
      assert (Hs : I64.wrap (Offset g + 1 - (Height g - 1))
                   = Offset g + 1 - (Height g - 1)).
      { apply I64_wrap_small.
        unfold I64.in_range, I64.min_int, I64.max_int in *. lia. }
      rewrite Hs. subst start. rewrite Z.max_r by lia.
      replace (Offset g + 1) with (Offset g + 1 - (Height g - 1) + (Height g - 1))
        at 2 by lia.
      rewrite Hres by lia. split; [reflexivity|lia].
    + destruct (Z.eqb_spec (Offset g) (Height g - 1)) as [Heq|Hne].
      * assert (Ha : I64.add (Height g - 1) 1 = 1 + (Height g - 1)).
        { unfold I64.add. rewrite I64_wrap_small; [lia|].
          unfold I64.in_range, I64.min_int, I64.max_int in *. lia. }
        rewrite Ha. subst start. rewrite Z.max_r by lia.
        replace (Offset g + 1 - (Height g - 1)) with 1 by lia.
        rewrite Hres by lia. split; [reflexivity|lia].
      * subst start. rewrite Z.max_l by lia.
        replace (Height g - 1) with (0 + (Height g - 1)) at 1 by lia.
        rewrite Hres by lia. split; [reflexivity|lia].
Qed.

(** X5. With at least one line for rows and the cursor on a row, [pageRows]
    returns rows [start .. start + n) of the grid, in order, where [n] is
    the smaller of the number of rows and [Height - 1]; the window lies
    within the rows and the cursor's row is in it. *)
Theorem pageRows_shows_cursor (g : Grid) :
  wf g -> 2 <= Height g -> 0 <= Offset g < Slice.len (rows g) ->
  let n := Z.min (Slice.len (rows g)) (Height g - 1) in
  let start := Z.max 0 (Offset g + 1 - (Height g - 1)) in
  pageRows g =
  Some (take (Z.to_nat n) (drop (Z.to_nat start) (Slice.elems (rows g)))) /\
  Z.of_nat (length (take (Z.to_nat n)
                      (drop (Z.to_nat start) (Slice.elems (rows g))))) = n /\
  start <= Offset g < start + n /\ start + n <= Slice.len (rows g).
Proof.
  intros Hwf H2 [Ho0 Hoff] n start.
  destruct (pageRows_bounds g Hwf H2 (or_introl Hoff)) as [Hp Hle].
  fold n start in Hp, Hle. split; [exact Hp|].
  unfold Slice.len in *. rewrite length_take, length_drop.
  subst n start. lia.
Qed.

(** X6. A grid whose height is zero or negative, the least [int] apart,
    cannot be paged: whatever its rows and its offset, not negative, the
    slice expression of [pageRows] has its low bound above its high bound
    or below zero and panics, and so does [Buffer]. At the least [int] the
    subtraction [Height - 1] wraps to the greatest one and all rows are
    returned. *)
Theorem pageRows_no_height (g : Grid) :
  wf g -> Height g <= 0 -> 0 <= Offset g ->
  (I64.min_int < Height g -> pageRows g = None /\ Buffer g = None) /\
  (Height g = I64.min_int -> Slice.len (rows g) < I64.max_int ->
   pageRows g = Some (Slice.elems (rows g))).
Proof.
  intros (Hlen & Hcap & Hh & Ho & _) H0 Hoff.
  unfold I64.in_range, I64.min_int, I64.max_int in *.
  split.
  - intros Hmin.
    assert (Hp : pageRows g = None).
    { unfold pageRows, GetHeight, Slice.len.
      assert (Hav : I64.sub (Height g) 1 = Height g - 1).
      { apply I64_wrap_small.
        unfold I64.in_range, I64.min_int, I64.max_int; lia. }
      rewrite Hav.
      destruct (Z.ltb_spec (Z.of_nat (length (Slice.elems (rows g))))
                  (Height g - 1)); [lia|].
      destruct (Z.ltb_spec (Height g - 1) (Offset g)); [|lia].
      unfold Slice.reslice.
      destruct (Z.eq_dec (Offset g) (2 ^ 63 - 1)) as [Hmax|Hnmax].
      + (* the high bound [Offset + 1] wraps below zero *)
        assert (He : I64.add (Offset g) 1 = - 2 ^ 63).
        { rewrite Hmax. reflexivity. }
        rewrite He.
        destruct (Z.leb_spec 0 (I64.sub (- 2 ^ 63) (Height g - 1)));
          [|reflexivity].
        destruct (Z.leb_spec (I64.sub (- 2 ^ 63) (Height g - 1)) (- 2 ^ 63));
          [lia|reflexivity].
      + assert (He : I64.add (Offset g) 1 = Offset g + 1).
        { apply I64_wrap_small.
          unfold I64.in_range, I64.min_int, I64.max_int; lia. }
        rewrite He.
        destruct (Z_le_gt_dec (Offset g + 1 - (Height g - 1)) (2 ^ 63 - 1))
          as [Hfit|Hover].
        * assert (Hs : I64.sub (Offset g + 1) (Height g - 1) =
                       Offset g + 1 - (Height g - 1)).
          { apply I64_wrap_small.
            unfold I64.in_range, I64.min_int, I64.max_int; lia. }
          rewrite Hs.
          destruct (Z.leb_spec (Offset g + 1 - (Height g - 1)) (Offset g + 1));
            [lia|].
          rewrite andb_false_r. reflexivity.
        * (* the low bound wraps below zero *)
          assert (Hs : I64.sub (Offset g + 1) (Height g - 1) =
                       Offset g + 1 - (Height g - 1) - 2 ^ 64).
          { unfold I64.sub, I64.wrap.
            replace (Offset g + 1 - (Height g - 1) + 2 ^ 63)
              with (Offset g + 1 - (Height g - 1) - 2 ^ 63 + 1 * 2 ^ 64) by lia.
            rewrite Z_mod_plus_full, Z.mod_small by lia. lia. }
          rewrite Hs.
          destruct (Z.leb_spec 0 (Offset g + 1 - (Height g - 1) - 2 ^ 64));
            [lia|reflexivity]. }
    split; [exact Hp|]. unfold Buffer. now rewrite Hp.
  - intros Hmin Hl. unfold pageRows, GetHeight. rewrite Hmin.
    change (I64.sub (- 2 ^ 63) 1) with (2 ^ 63 - 1).
    destruct (Z.ltb_spec (Slice.len (rows g)) (2 ^ 63 - 1)); [reflexivity|lia].
Qed.

(** X7. [Buffer] does not reset the offset as [Align] does: with a full page
    of rows and the offset at or past their number, the window reaches
    beyond the rows, and [Buffer] panics, on the slice expression or on the
    nil element it yields. *)
Theorem Buffer_stale_offset (g : Grid) :
  wf g -> 2 <= Height g -> Height g - 1 <= Slice.len (rows g) ->
  Slice.len (rows g) <= Offset g -> Offset g < I64.max_int ->
  Buffer g = None.
Proof.
  intros (Hlen & Hcap & Hh & Ho & _) H2 Hfull Hoff Hmax.
  unfold Buffer, pageRows, GetHeight, I64.sub, I64.add, Slice.len in *.
  unfold I64.in_range, I64.min_int, I64.max_int in *.
  rewrite (I64_wrap_small (Height g - 1))
    by (unfold I64.in_range, I64.min_int, I64.max_int; lia).
  destruct (Z.ltb_spec (Z.of_nat (length (Slice.elems (rows g)))) (Height g - 1));
    [lia|].
  assert (Hnil : forall low high,
    0 <= low -> low <= Offset g < high ->
    match Slice.reslice None (rows g) low high with
    | Some page => mapM (fun slot : option nat => slot) page
    | None => None
    end = None).
  { intros low high Hl [Hlo Hhi]. unfold Slice.reslice.
    destruct ((0 <=? low) && (low <=? high) &&
              (high <=? Z.of_nat (Slice.cap (rows g)))) eqn:Hb; [|reflexivity].
    apply andb_prop in Hb as [Hb Hc]. apply Z.leb_le in Hc.
    apply mapM_None. apply Exists_exists. exists None. split; [|reflexivity].
    apply list_elem_of_lookup. exists (Z.to_nat (Offset g - low)).
    rewrite lookup_take_lt by lia. rewrite lookup_drop.
    unfold Slice.slots. rewrite lookup_app_r by lia.
    apply lookup_replicate. split; [reflexivity|lia]. }
  destruct (Z.ltb_spec (Height g - 1) (Offset g)).
  - rewrite (I64_wrap_small (Offset g + 1))
      by (unfold I64.in_range, I64.min_int, I64.max_int; lia).
    rewrite (I64_wrap_small (Offset g + 1 - (Height g - 1)))
      by (unfold I64.in_range, I64.min_int, I64.max_int; lia).
    apply Hnil; lia.
  - destruct (Z.eqb_spec (Offset g) (Height g - 1)); [|lia].
    rewrite (I64_wrap_small (Height g - 1 + 1))
      by (unfold I64.in_range, I64.min_int, I64.max_int; lia).
    apply Hnil; lia.
Qed.

End GridPages.

Section GridAlign.

Import termui.

Context {R : Type} `{ui.StableHeight R}.

Lemma Zsum_take_S (h : Z) (hs : list Z) (i : nat) :
  Zsum (take (S i) (h :: hs)) = h + Zsum (take i hs).
Proof. reflexivity. Qed.

Lemma row_heights_insert (heap : gmap nat R) (p : nat) (r : R)
  (ps : list nat) :
  p ∉ ps -> row_heights (<[p := r]> heap) ps = row_heights heap ps.
Proof.
  intros Hp. unfold row_heights. apply map_ext_in. intros q Hq.
  rewrite lookup_insert_ne; [reflexivity|].
  intros ->. apply Hp. now apply list_elem_of_In.
Qed.

(** The loop of [Align] over distinct rows. *)
Lemma align_loop_spec (g : Grid) (ps : list nat) (y0 : Z)
  (heap : gmap nat R) :
  NoDup ps -> (forall p, p ∈ ps -> is_Some (heap !! p)) ->
  exists heap',
    align_loop g (I64.wrap y0) (map Some ps) heap = Some heap' /\
    (forall i p r, ps !! i = Some p -> heap !! p = Some r ->
       heap' !! p =
       Some (ui.SetWidth (Width g)
               (ui.SetX (X g)
                  (ui.SetY (I64.wrap (y0 + Zsum (take i (row_heights heap ps))))
                     r)))) /\
    (forall p, p ∉ ps -> heap' !! p = heap !! p).
Proof.
  intros Hnd. revert y0 heap.
  induction Hnd as [|p ps Hp Hnd IH]; intros y0 heap Hin.
  - exists heap. split; [reflexivity|]. split; [|reflexivity].
    intros i p r Hi. rewrite lookup_nil in Hi. discriminate.
  - destruct (Hin p ltac:(left)) as [r Hr].
    cbn [map align_loop]. unfold align_row. rewrite Hr.
    rewrite ui.GetHeight_SetX, ui.GetHeight_SetY, I64_add_wrap_l.
    set (r' := ui.SetWidth (Width g) (ui.SetX (X g) (ui.SetY (I64.wrap y0) r))).
    destruct (IH (y0 + ui.GetHeight r) (<[p := r']> heap))
      as (heap' & Hloop & Hon & Hoff).
    { intros q Hq. rewrite lookup_insert_ne; [apply Hin; now right|].
      intros ->. contradiction. }
    exists heap'. split; [exact Hloop|]. split.
    + intros i q rq Hi Hq. destruct i as [|i].
      * injection Hi as <-. rewrite (Hoff p Hp), lookup_insert_eq.
        rewrite Hr in Hq. injection Hq as <-.
        cbn [take Zsum foldr]. now rewrite Z.add_0_r.
      * cbn [lookup] in Hi. change ((p :: ps) !! S i) with (ps !! i) in Hi.
        assert (Hqp : q <> p).
        { intros ->. apply Hp. eapply list_elem_of_lookup_2. exact Hi. }
        rewrite (Hon i q rq Hi) by (rewrite lookup_insert_ne; auto).
        rewrite (row_heights_insert heap p r' ps Hp).
        unfold row_heights at 2. cbn [map]. rewrite Hr. cbn [from_option].
        rewrite Zsum_take_S, Z.add_assoc. reflexivity.
    + intros q Hq. rewrite not_elem_of_cons in Hq. destruct Hq as [Hqp Hq].
      rewrite (Hoff q Hq). now rewrite lookup_insert_ne.
Qed.

(** X8. [Align] on a grid of distinct, non-nil rows with at least one line for
    them never panics, whatever the offset, which it resets when it is at
    or past the number of rows. It goes through the rows of the page and
    nothing else: the row at place [i] of the page is put at
    [Y + h_0 + ... + h_(i-1)] (in [int] arithmetic), the heights of the rows
    above it on the page, then at the grid's [X], then given the grid's
    width; every other row is left as it is. *)
Theorem Align_stacks (g : Grid) (heap : gmap nat R) (ps : list nat) :
  wf g -> 2 <= Height g ->
  Slice.elems (rows g) = map Some ps -> NoDup ps ->
  (forall p, p ∈ ps -> is_Some (heap !! p)) ->
  let g' := if Slice.len (rows g) <=? Offset g then set_Offset 0 g else g in
  let n := Z.min (Slice.len (rows g)) (Height g - 1) in
  let start := Z.max 0 (Offset g' + 1 - (Height g - 1)) in
  let page := take (Z.to_nat n) (drop (Z.to_nat start) ps) in
  exists heap',
    Align g heap = Some (g', heap') /\
    (forall i p r, page !! i = Some p -> heap !! p = Some r ->
       heap' !! p =
       Some (ui.SetWidth (Width g)
               (ui.SetX (X g)
                  (ui.SetY
                     (I64.wrap (Y g + Zsum (take i (row_heights heap page))))
                     r)))) /\
    (forall p, p ∉ page -> heap' !! p = heap !! p).
Proof.
  intros Hwf H2 Hps Hnd Hin g' n start page.
  assert (Hwf' : wf g').
  { subst g'. destruct (Slice.len (rows g) <=? Offset g); [|exact Hwf].
    unfold wf, I64.in_range, I64.min_int, I64.max_int in *. cbn.
    intuition lia. }
  assert (Hsame : rows g' = rows g /\ Height g' = Height g /\ X g' = X g /\
                  Y g' = Y g /\ Width g' = Width g).
  { subst g'. destruct (Slice.len (rows g) <=? Offset g); repeat split. }
  destruct Hsame as (Hrows & Hh & Hx & Hy & Hw).
  assert (Hoff : Offset g' < Slice.len (rows g') \/ Offset g' <= 0).
  { subst g'. destruct (Z.leb_spec (Slice.len (rows g)) (Offset g)); cbn.
    - right. lia.
    - left. lia. }
  destruct (pageRows_bounds g' Hwf' ltac:(lia) Hoff) as [Hpage _].
  rewrite Hrows, Hh, Hps in Hpage. fold n start in Hpage.
  rewrite skipn_map, firstn_map in Hpage. fold page in Hpage.
  assert (Hsub : sublist page ps).
  { subst page. etransitivity; [apply sublist_take | apply sublist_drop]. }
  destruct (align_loop_spec g' page (Y g) heap) as (heap' & Hloop & Hon & Hout).
  { eapply sublist_NoDup; eassumption. }
  { intros p Hp. apply Hin. eapply elem_of_sublist; eassumption. }
  exists heap'. split.
  - unfold Align. fold g'. rewrite Hpage, Hy.
    rewrite <- (I64_wrap_small (Y g)) at 1 by apply Hwf.
    now rewrite Hloop.
  - rewrite Hx, Hw in Hon. split; [exact Hon | exact Hout].
Qed.

End GridAlign.

Section GridRows.

Import termui.

Variable grow : nat -> nat.

Lemma append_elems (s : Slice.t (option nat)) (r : option nat) :
  Slice.elems (Slice.append grow s r) = Slice.elems s ++ [r] /\
  ((length (Slice.elems s) <= Slice.cap s)%nat ->
   (length (Slice.elems (Slice.append grow s r))
    <= Slice.cap (Slice.append grow s r))%nat).
Proof.
  unfold Slice.append.
  destruct (Nat.ltb_spec (length (Slice.elems s)) (Slice.cap s)); cbn;
    rewrite length_app; cbn; split; auto; lia.
Qed.

(** X9. [AddRows] keeps the rows the grid has, in place, and puts the new ones
    after them in the order given; the length stays within the capacity
    and no other field changes. After [Clear] the grid holds the new rows
    alone. *)
Theorem AddRows_appends (new : list (option nat)) (g : Grid) :
  (length (Slice.elems (rows g)) <= Slice.cap (rows g))%nat ->
  let g' := AddRows grow new g in
  Slice.elems (rows g') = Slice.elems (rows g) ++ new /\
  (length (Slice.elems (rows g')) <= Slice.cap (rows g'))%nat /\
  (X g', Y g', Height g', Width g', Offset g')
  = (X g, Y g, Height g, Width g, Offset g) /\
  Slice.elems (rows (AddRows grow new (Clear g))) = new.
Proof.
  assert (Hgen : forall new g,
    (length (Slice.elems (rows g)) <= Slice.cap (rows g))%nat ->
    Slice.elems (rows (AddRows grow new g)) = Slice.elems (rows g) ++ new /\
    (length (Slice.elems (rows (AddRows grow new g)))
     <= Slice.cap (rows (AddRows grow new g)))%nat /\
    (X (AddRows grow new g), Y (AddRows grow new g),
     Height (AddRows grow new g), Width (AddRows grow new g),
     Offset (AddRows grow new g))
    = (X g, Y g, Height g, Width g, Offset g)).
  { clear new g. intros new. induction new as [|r new IH]; intros g Hcap.
    - cbn. rewrite app_nil_r. auto.
    - change (AddRows grow (r :: new) g)
        with (AddRows grow new (set_rows (Slice.append grow (rows g) r) g)).
      destruct (append_elems (rows g) r) as [He Hc].
      destruct (IH (set_rows (Slice.append grow (rows g) r) g))
        as (IHe & IHc & IHf); [cbn; auto|].
      split; [|split; [exact IHc | rewrite IHf; reflexivity]].
      rewrite IHe. cbn [rows set_rows]. now rewrite He, <- app_assoc. }
  intros Hcap g'. destruct (Hgen new g Hcap) as (He & Hc & Hf).
  split; [exact He|]. split; [exact Hc|]. split; [exact Hf|].
  destruct (Hgen new (Clear g)) as (He' & _); [cbn; lia|].
  rewrite He'. reflexivity.
Qed.

End GridRows.

(** ** The row of a container *)

Section RowFacts.

Import appui.

Variable env : Env.

Lemma clamp_percent_bounds (n : Z) : 5 <= clamp_percent n <= 100.
Proof.
  unfold clamp_percent.
  destruct (Z.ltb_spec n 5); [lia|]. destruct (Z.ltb_spec 100 n); lia.
Qed.

Lemma update_gauges (row : ContainerStatsRow) (stat : Stats) :
  gauge_ok env (CPU (update env row stat)) /\
  gauge_ok env (Memory (update env row stat)).
Proof.
  unfold update, setPids, setBlockIO, setMem, setCPU, setNet, gauge_ok.
  cbn. split; (split; [apply clamp_percent_bounds | reflexivity]).
Qed.

Lemma consume_snoc (row : ContainerStatsRow) (l : list Stats) (stat : Stats) :
  consume env row (l ++ [stat]) = update env (consume env row l) stat.
Proof. unfold consume. now rewrite fold_left_app. Qed.

(** X10. Once the consumer has received a record, and whatever the values in
    the records, NaN and infinities included, both gauges of the row show
    a percentage from 5 to 100 and the bar colour that goes with it. *)
Theorem consume_gauges (row : ContainerStatsRow) (received : list Stats) :
  received <> [] ->
  let row' := consume env row received in
  (5 <= Percent (CPU row') <= 100 /\
   BarColor (CPU row') = percentileToColor env (Percent (CPU row'))) /\
  (5 <= Percent (Memory row') <= 100 /\
   BarColor (Memory row') = percentileToColor env (Percent (Memory row'))).
Proof.
  intros Hne. destruct (exists_last Hne) as (l & stat & ->).
  cbv zeta. rewrite consume_snoc. apply update_gauges.
Qed.

Lemma I64_wrap_add_r (a b : Z) : I64.wrap (a + I64.wrap b) = I64.wrap (a + b).
Proof.
  unfold I64.wrap.
  replace (a + ((b + 2 ^ 63) mod 2 ^ 64 - 2 ^ 63) + 2 ^ 63)
    with (a + (b + 2 ^ 63) mod 2 ^ 64) by lia.
  rewrite Z.add_mod_idemp_r by lia. f_equal. f_equal. lia.
Qed.

Lemma layout_closed (rw spacing x : Z) (cols : list column) :
  layout rw spacing (I64.wrap x) cols = layout_calls rw spacing x cols.
Proof.
  unfold layout_calls. revert x. induction cols as [|col cols IH]; intros x.
  - reflexivity.
  - cbn [layout imap concat app]. rewrite Z.mul_0_l, Z.add_0_r.
    f_equal. f_equal.
    change (I64.add rw spacing) with (I64.wrap (rw + spacing)).
    rewrite I64_add_wrap_l, I64_wrap_add_r, IH. f_equal. apply imap_ext. intros i c _. cbn.
    replace (x + Z.of_nat (S i) * (rw + spacing))
      with (x + (rw + spacing) + Z.of_nat i * (rw + spacing))
      by (rewrite Nat2Z.inj_succ; ring).
    reflexivity.
Qed.

(** X11. [SetWidth] with a new width stores it and lays the columns out from
    left to right in the order of the slice, each [rw] wide, where [rw] is
    [calcItemWidth(width, len(columns))], and [rw + columnSpacing] apart
    starting at the row's [X] (in [int] arithmetic); with the width the row
    already has it does nothing, wherever [X] is by then. *)
Theorem SetWidth_layout (width : Z) (row : ContainerStatsRow) :
  I64.in_range (X row) ->
  let rw := calcItemWidth env width (Z.of_nat (length (columns row))) in
  (width <> Width row ->
   SetWidth env width row =
   set_calls
     (calls row ++ layout_calls rw (columnSpacing env) (X row) (columns row))
     (set_Width width row)) /\
  (width = Width row -> SetWidth env width row = row).
Proof.
  intros Hx rw. unfold SetWidth. split.
  - intros Hne. destruct (Z.eqb_spec width (Width row)); [contradiction|].
    cbn [X set_Width columns calls]. fold rw.
    rewrite <- (I64_wrap_small (X row) Hx) at 1. now rewrite layout_closed.
  - intros ->. now rewrite Z.eqb_refl.
Qed.

Lemma buildStats_percentages (ToLower TruncateID : string -> string)
  (c : Container) (snap : StatsJSON) (top : option ContainerProcessList)
  (visit1 visit2 : list (string * NetworkStats)) :
  CPUPercentage (buildStats ToLower TruncateID c snap top visit1 visit2)
  = calculateCPUPercent snap /\
  MemoryPercentage (buildStats ToLower TruncateID c snap top visit1 visit2)
  = calculateMemPercentage snap.
Proof.
  unfold buildStats, buildStats_first.
  destruct (calculateBlockIO ToLower snap) as [br bw]. split; reflexivity.
Qed.

(** X12. A snapshot without a memory limit draws the memory gauge at its
    minimum, 5 percent, in the lowest colour, and one whose CPU counter or
    system counter did not move does so for the CPU gauge: the percentage
    0 of the calculator is raised to 5 by the row. *)
Theorem idle_gauges (ToLower TruncateID : string -> string)
  (row : ContainerStatsRow) (c : Container) (snap : StatsJSON)
  (top : option ContainerProcessList)
  (visit1 visit2 : list (string * NetworkStats)) :
  let row' := update env row
                (buildStats ToLower TruncateID c snap top visit1 visit2) in
  (Limit (MemoryStats_ snap) = 0 ->
   Percent (Memory row') = 5 /\ BarColor (Memory row') = Color23 env) /\
  (TotalUsage (CPUUsage_ (CPUStats_ snap))
   = TotalUsage (CPUUsage_ (PreCPUStats snap)) \/
   SystemUsage (CPUStats_ snap) = SystemUsage (PreCPUStats snap) ->
   Percent (CPU row') = 5 /\ BarColor (CPU row') = Color23 env).
Proof.
  intros row'. subst row'.
  destruct (buildStats_percentages ToLower TruncateID c snap top visit1 visit2)
    as [Hcpu Hmem].
  unfold update, setPids, setBlockIO, setMem, setCPU, setNet.
  cbn [Memory CPU set_Pids set_Block set_Memory set_CPU set_Net Percent BarColor].
  rewrite Hcpu, Hmem. split.
  - intros Hl. unfold calculateMemPercentage. rewrite Hl. split; reflexivity.
  - intros Hc. rewrite (calculateCPUPercent_zero_delta snap Hc).
    split; reflexivity.
Qed.

(** X13. Producer and consumer go together: on the channel pair that
    [NewStatsChannel] returns, [NewContainerStatsRow] starts its consumer
    exactly when the [Stats] channel is not nil, which is exactly when a
    producer goroutine was started; otherwise nothing was started and the
    row is marked as not running. *)
Theorem consumer_iff_producer (c : Container) (rt : runtime) :
  let s := fst (NewStatsChannel (IsContainerRunning env) c rt) in
  let rt' := snd (NewStatsChannel (IsContainerRunning env) c rt) in
  let row := fst (NewContainerStatsRow env s) in
  let started := snd (NewContainerStatsRow env s) in
  (started = true <-> StatsChannel.Stats s <> None) /\
  (started = true <->
   exists stats done,
     goroutines rt' = (stats, done, goroutine_init c) :: goroutines rt) /\
  (started = false ->
   rt' = rt /\ Label (CPU row) = "-" /\ Label (Memory row) = "-").
Proof.
  unfold NewStatsChannel, NewContainerStatsRow.
  destruct (IsContainerRunning env c) eqn:Hr; cbn; rewrite Hr; cbn.
  - split; [|split].
    + split; [discriminate | reflexivity].
    + split; [|reflexivity]. intros _. eexists _, _. reflexivity.
    + discriminate.
  - split; [|split].
    + split; [discriminate | congruence].
    + split; [discriminate|]. intros (stats & done & H).
      apply (f_equal (@length _)) in H. cbn in H. lia.
    + intros _. repeat split.
Qed.

End RowFacts.

(** ** The examples *)

#[export] Instance row_StableHeight (env : appui.Env)
  : @ui.StableHeight appui.ContainerStatsRow (appui.row_GridBufferer env).
Proof.
  split; intros v r; cbn; unfold appui.SetY, appui.SetX.
  - destruct (v =? appui.Y r); reflexivity.
  - reflexivity.
Qed.

Ltac grid_arith :=
  unfold termui.wf, I64.in_range, I64.min_int, I64.max_int, Slice.len,
    stale_grid, example_grid, example_row, termui.NewGrid;
  cbn; lia.

Lemma wf_example_grid : termui.wf example_grid.
Proof. grid_arith. Qed.

Lemma pageRows_shows_cursor_witness :
  termui.pageRows example_grid = Some [Some 1; Some 2; Some 3]%nat.
Proof.
  destruct (pageRows_shows_cursor example_grid wf_example_grid) as [H _].
  - grid_arith.
  - grid_arith.
  - rewrite H. reflexivity.
Defined.

Lemma pageRows_no_height_witness :
  termui.pageRows (termui.NewGrid 0 0 0 70) = None /\
  termui.Buffer (termui.NewGrid 0 0 0 70) = None.
Proof.
  destruct (pageRows_no_height (termui.NewGrid 0 0 0 70)) as [H _].
  - grid_arith.
  - grid_arith.
  - grid_arith.
  - apply H. grid_arith.
Defined.

Lemma Buffer_stale_offset_witness : termui.Buffer stale_grid = None.
Proof.
  apply Buffer_stale_offset.
  - grid_arith.
  - grid_arith.
  - grid_arith.
  - grid_arith.
  - grid_arith.
Defined.

Lemma Align_stacks_witness :
  exists heap',
    @termui.Align _ (appui.row_GridBufferer example_env) example_grid
      example_heap = Some (example_grid, heap') /\
    heap' !! 0%nat = example_heap !! 0%nat /\
    heap' !! 3%nat =
    Some (appui.SetWidth example_env 70
            (appui.SetX 0 (appui.SetY 4 example_row))).
Proof.
  destruct (@Align_stacks _ (appui.row_GridBufferer example_env)
              (row_StableHeight example_env) example_grid example_heap
              [0; 1; 2; 3; 4]%nat wf_example_grid)
    as (heap' & HA & Hon & Hout).
  - grid_arith.
  - reflexivity.
  - apply (bool_decide_unpack _). vm_compute. exact I.
  - intros p Hp.
    repeat (apply elem_of_cons in Hp as [->|Hp]; [vm_compute; eauto|]).
    now apply elem_of_nil in Hp.
  - exists heap'. split; [exact HA|]. split.
    + apply Hout. apply (bool_decide_unpack _). vm_compute. exact I.
    + apply (Hon 2%nat 3%nat example_row); reflexivity.
Defined.

Lemma AddRows_appends_witness :
  Slice.elems (termui.rows (termui.AddRows (fun c => 2 * c)%nat
                              [Some 5; Some 6]%nat example_grid)) =
  [Some 0; Some 1; Some 2; Some 3; Some 4; Some 5; Some 6]%nat.
Proof.
  destruct (AddRows_appends (fun c => 2 * c)%nat [Some 5; Some 6]%nat
              example_grid) as [H _].
  - grid_arith.
  - rewrite H. reflexivity.
Defined.

Lemma consume_gauges_witness :
  5 <= appui.Percent
         (appui.CPU
            (appui.consume example_env example_row
               [buildStats ascii_to_lower (fun id => id) example_container
                  example_stats None (map_to_list (Networks example_stats))
                  (map_to_list (Networks example_stats))])) <= 100.
Proof.
  destruct (consume_gauges example_env example_row
              [buildStats ascii_to_lower (fun id => id) example_container
                 example_stats None (map_to_list (Networks example_stats))
                 (map_to_list (Networks example_stats))]) as [[H _] _].
  - discriminate.
  - exact H.
Defined.

Lemma SetWidth_layout_witness :
  appui.calls (appui.SetWidth example_env 70 example_row) =
  [ (appui.ColID, appui.CallSetX 0); (appui.ColID, appui.CallSetWidth 10);
    (appui.ColName, appui.CallSetX 11); (appui.ColName, appui.CallSetWidth 10);
    (appui.ColCPU, appui.CallSetX 22); (appui.ColCPU, appui.CallSetWidth 10);
    (appui.ColMemory, appui.CallSetX 33);
    (appui.ColMemory, appui.CallSetWidth 10);
    (appui.ColNet, appui.CallSetX 44); (appui.ColNet, appui.CallSetWidth 10);
    (appui.ColBlock, appui.CallSetX 55);
    (appui.ColBlock, appui.CallSetWidth 10);
    (appui.ColPids, appui.CallSetX 66);
    (appui.ColPids, appui.CallSetWidth 10) ].
Proof.
  destruct (SetWidth_layout example_env 70 example_row) as [H _].
  - grid_arith.
  - rewrite H by discriminate. reflexivity.
Defined.

Lemma idle_gauges_witness :
  appui.Percent
    (appui.Memory
       (appui.update example_env example_row
          (buildStats ascii_to_lower (fun id => id) example_container
             no_limit_stats None [] []))) = 5.
Proof.
  destruct (idle_gauges example_env ascii_to_lower (fun id => id) example_row
              example_container no_limit_stats None [] []) as [H _].
  destruct (H eq_refl) as [Hp _]. exact Hp.
Defined.

(** ** More on paging *)

Section GridMore.

Import termui.

(** X14. A grid of height 1 has no line for rows and never shows one: for
    an offset that is not negative, [pageRows] returns the empty page when
    the slice has capacity beyond the offset and panics otherwise, as it
    does on a grid without rows. *)
Theorem pageRows_height_one (g : Grid) :
  wf g -> Height g = 1 -> 0 <= Offset g < I64.max_int ->
  pageRows g =
  if Offset g + 1 <=? Z.of_nat (Slice.cap (rows g)) then Some [] else None.
Proof.
  intros (Hlen & Hcap & Hh & Ho & _) H1 [Ho0 Homax].
  unfold pageRows, GetHeight, I64.sub, I64.add, Slice.len. rewrite H1.
  change (I64.wrap (1 - 1)) with 0.
  destruct (Z.ltb_spec (Z.of_nat (length (Slice.elems (rows g)))) 0); [lia|].
  assert (Hw : I64.wrap (Offset g + 1) = Offset g + 1).
  { apply I64_wrap_small. unfold I64.in_range, I64.min_int, I64.max_int in *. lia. }
  assert (Hres : forall k, 0 <= k ->
            Slice.reslice None (rows g) k k =
            if k <=? Z.of_nat (Slice.cap (rows g)) then Some [] else None).
  { intros k Hk. unfold Slice.reslice.
    destruct (Z.leb_spec 0 k); [|lia]. rewrite Z.leb_refl. cbn [andb].
    destruct (k <=? Z.of_nat (Slice.cap (rows g))); [|reflexivity].
    now rewrite Z.sub_diag. }
  destruct (Z.ltb_spec 0 (Offset g)).
  - rewrite Hw, Z.sub_0_r, Hw. apply Hres. lia.
  - destruct (Z.eqb_spec (Offset g) 0) as [->|]; [|lia].
    change (I64.wrap (0 + 1)) with 1. apply Hres. lia.
Qed.

End GridMore.

Lemma pageRows_height_one_witness :
  termui.pageRows (termui.NewGrid 0 0 1 70) = None.
Proof.
  rewrite (pageRows_height_one (termui.NewGrid 0 0 1 70)).
  - reflexivity.
  - grid_arith.
  - reflexivity.
  - grid_arith.
Defined.

(** ** Rows of containers in a grid *)

Section GridOfRows.

Import termui.

Variable env : appui.Env.

Lemma Zsum_take_ones (hs : list Z) (i : nat) :
  Forall (fun h => h = 1) hs -> (i <= length hs)%nat ->
  Zsum (take i hs) = Z.of_nat i.
Proof.
  intros Hhs. revert i. induction Hhs as [|h hs -> _ IH]; intros i Hi.
  - cbn in Hi. replace i with 0%nat by lia. reflexivity.
  - destruct i as [|i]; [reflexivity|].
    cbn [take Zsum foldr length] in *. fold (Zsum (take i hs)).
    rewrite IH by lia. lia.
Qed.

Lemma row_placed (x y w : Z) (r : appui.ContainerStatsRow) :
  let r' := appui.SetWidth env w (appui.SetX x (appui.SetY y r)) in
  appui.Y r' = y /\ appui.X r' = x /\ appui.Width r' = w /\
  appui.Height r' = appui.Height r.
Proof.
  unfold appui.SetWidth, appui.SetX, appui.SetY.
  destruct (Z.eqb_spec y (appui.Y r)) as [->|Hy]; cbn;
    match goal with
    | |- context [w =? ?v] => destruct (Z.eqb_spec w v) as [->|Hw]
    end; cbn; repeat split.
Qed.

(** X15. In a grid of container rows, each one line high as
    [NewContainerStatsRow] makes them, [Align] leaves the rows of the page
    one line apart from the grid's [Y] down: the row at place [i] of the
    page ends with [Y = grid Y + i] (in [int] arithmetic), the grid's [X]
    and the grid's width, and its height unchanged. *)
Theorem Align_rows_one_apart (g : Grid)
  (heap : gmap nat appui.ContainerStatsRow) (ps : list nat) :
  wf g -> 2 <= Height g ->
  Slice.elems (rows g) = map Some ps -> NoDup ps ->
  (forall p, p ∈ ps ->
     exists r, heap !! p = Some r /\ appui.Height r = 1) ->
  let g' := if Slice.len (rows g) <=? Offset g then set_Offset 0 g else g in
  let n := Z.min (Slice.len (rows g)) (Height g - 1) in
  let start := Z.max 0 (Offset g' + 1 - (Height g - 1)) in
  let page := take (Z.to_nat n) (drop (Z.to_nat start) ps) in
  exists heap',
    @Align _ (appui.row_GridBufferer env) g heap = Some (g', heap') /\
    forall i p, page !! i = Some p ->
      exists r', heap' !! p = Some r' /\
        appui.Y r' = I64.wrap (Y g + Z.of_nat i) /\
        appui.X r' = X g /\ appui.Width r' = Width g /\ appui.Height r' = 1.
Proof.
  intros Hwf H2 Hps Hnd Hin g' n start page.
  assert (Hwf' : wf g').
  { subst g'. destruct (Slice.len (rows g) <=? Offset g); [|exact Hwf].
    unfold wf, I64.in_range, I64.min_int, I64.max_int in *. cbn.
    intuition lia. }
  assert (Hsame : rows g' = rows g /\ Height g' = Height g /\ X g' = X g /\
                  Y g' = Y g /\ Width g' = Width g).
  { subst g'. destruct (Slice.len (rows g) <=? Offset g); repeat split. }
  destruct Hsame as (Hrows & Hh & Hx & Hy & Hw).
  assert (Hoff : Offset g' < Slice.len (rows g') \/ Offset g' <= 0).
  { subst g'. destruct (Z.leb_spec (Slice.len (rows g)) (Offset g)); cbn.
    - right. lia.
    - left. lia. }
  destruct (pageRows_bounds g' Hwf' ltac:(lia) Hoff) as [Hpage _].
  rewrite Hrows, Hh, Hps in Hpage. fold n start in Hpage.
  rewrite skipn_map, firstn_map in Hpage. fold page in Hpage.
  assert (Hsub : sublist page ps).
  { subst page. etransitivity; [apply sublist_take | apply sublist_drop]. }
  assert (Hin' : forall p, p ∈ page ->
                   exists r, heap !! p = Some r /\ appui.Height r = 1).
  { intros p Hp. apply Hin. eapply elem_of_sublist; eassumption. }
  destruct (@align_loop_spec _ (appui.row_GridBufferer env)
              (row_StableHeight env) g' page (Y g) heap)
    as (heap' & Hloop & Hon & _).
  { eapply sublist_NoDup; eassumption. }
  { intros p Hp. destruct (Hin' p Hp) as (r & Hr & _). now exists r. }
  exists heap'. split.
  - unfold Align. fold g'. rewrite Hpage, Hy.
    rewrite <- (I64_wrap_small (Y g)) at 1 by apply Hwf.
    now rewrite Hloop.
  - intros i p Hi.
    destruct (Hin' p (list_elem_of_lookup_2 _ _ _ Hi)) as (r & Hr & Hr1).
    rewrite (Hon i p r Hi Hr). eexists. split; [reflexivity|].
    assert (Hones : Forall (fun h => h = 1)
                      (@row_heights _ (appui.row_GridBufferer env) heap page)).
    { unfold row_heights. apply Forall_map, Forall_forall. intros q Hq.
      destruct (Hin' q Hq) as (rq & -> & Hq1). exact Hq1. }
    rewrite (Zsum_take_ones _ i Hones).
    + cbn [ui.SetWidth ui.SetX ui.SetY appui.row_GridBufferer].
      destruct (row_placed (X g') (I64.wrap (Y g + Z.of_nat i)) (Width g') r)
        as (HY & HX & HW & HH).
      rewrite HY, HX, HW, HH, Hx, Hw. auto.
    + unfold row_heights. rewrite length_map.
      apply lookup_lt_Some in Hi. lia.
Qed.

End GridOfRows.

Lemma Align_rows_one_apart_witness :
  exists heap' r',
    @termui.Align _ (appui.row_GridBufferer example_env) example_grid
      example_heap = Some (example_grid, heap') /\
    heap' !! 3%nat = Some r' /\ appui.Y r' = 4.
Proof.
  destruct (Align_rows_one_apart example_env example_grid example_heap
              [0; 1; 2; 3; 4]%nat wf_example_grid)
    as (heap' & HA & Hrows).
  - grid_arith.
  - reflexivity.
  - apply (bool_decide_unpack _). vm_compute. exact I.
  - intros p Hp.
    repeat (apply elem_of_cons in Hp as [->|Hp];
            [exists example_row; split; reflexivity|]).
    now apply elem_of_nil in Hp.
  - destruct (Hrows 2%nat 3%nat eq_refl) as (r' & Hr & HY & _).
    exists heap', r'. split; [exact HA|]. split; [exact Hr | exact HY].
Defined.

(** ** The calculators return numbers *)

Module F64Bounds.

Import F64Facts.

Lemma Zdigits2_upper (m : Z) : 0 <= m -> m < 2 ^ Zdigits2 m.
Proof.
  intros Hm. destruct m as [|p|p]; try lia.
  - reflexivity.
  - apply digits_upper.
Qed.

Lemma Zdigits2_le (m a : Z) : 0 <= m < 2 ^ a -> 0 <= a -> Zdigits2 m <= a.
Proof.
  intros [Hm Hlt] Ha. destruct m as [|p|p]; [exact Ha| |lia]. cbn.
  pose proof (digits_lower p) as Hl.
  assert (Zpos (digits2_pos p) - 1 < a).
  { apply (Z.pow_lt_mono_r_iff 2); lia. }
  lia.
Qed.

Lemma pow2_pos (a : Z) : 0 <= a -> 0 < 2 ^ a.
Proof. intros. apply Z.pow_pos_nonneg; lia. Qed.

(** Dividing by a power of two keeps a number under a power of two. *)
Lemma div_pow2_lt (m a s : Z) :
  0 <= m < 2 ^ a -> 0 <= s <= a -> m / 2 ^ s < 2 ^ (a - s).
Proof.
  intros [Hm Hlt] [Hs Hsa].
  apply Z.div_lt_upper_bound; [apply pow2_pos; lia|].
  rewrite <- Z.pow_add_r by lia. replace (s + (a - s)) with a by lia.
  exact Hlt.
Qed.

Lemma shr_fexp_spec (m e : Z) (l : location) :
  0 <= m ->
  let s := Z.max 0 (SpecFloat.fexp F64.prec F64.emax (Zdigits2 m + e) - e) in
  shr_m (fst (shr_fexp F64.prec F64.emax m e l)) = m / 2 ^ s /\
  snd (shr_fexp F64.prec F64.emax m e l) = e + s.
Proof.
  intros Hm s. unfold shr_fexp.
  destruct (shr_spec (shr_record_of_loc m l) e
              (SpecFloat.fexp F64.prec F64.emax (Zdigits2 m + e) - e))
    as [H1 H2].
  { now rewrite shr_record_of_loc_m. }
  rewrite H1, H2, shr_record_of_loc_m. split; reflexivity.
Qed.

Lemma round_nearest_even_le (m : Z) (l : location) :
  round_nearest_even m l <= m + 1.
Proof.
  destruct l as [|[]]; simpl; try lia. destruct (Z.even m); lia.
Qed.

(** Rounding a mantissa that stands for a number below [2^k] gives [+0]
    or a positive finite number below [2^(k+1)]. *)
Lemma binary_round_aux_bounded (lo k m e : Z) (l : location) :
  0 <= m < 2 ^ (k - e) -> lo <= e -> F64.emin <= k <= F64.emax - F64.prec ->
  F64_bounded lo (k + 1) (binary_round_aux F64.prec F64.emax false m e l).
Proof.
  intros [Hm Hlt] Hlo [Hkmin Hkmax].
  assert (Hke : 0 <= k - e).
  { destruct (Z.lt_ge_cases (k - e) 0) as [Hneg|]; [|lia].
    rewrite Z.pow_neg_r in Hlt by lia. lia. }
  unfold binary_round_aux.
  destruct (shr_fexp_spec m e l Hm) as [Hm1 He1].
  set (d := Zdigits2 m) in *.
  assert (Hd : d <= k - e) by (apply Zdigits2_le; lia).
  assert (Hd0 : 0 <= d).
  { subst d. destruct m; cbn; lia. }
  set (s1 := Z.max 0 (SpecFloat.fexp F64.prec F64.emax (d + e) - e)) in *.
  assert (Hs1 : 0 <= s1 <= k - e).
  { subst s1. unfold SpecFloat.fexp, F64.emin, SpecFloat.emin, F64.prec,
      F64.emax in *. lia. }
  destruct (shr_fexp F64.prec F64.emax m e l) as [mrs1 e1].
  cbn [fst snd] in Hm1, He1.
  assert (Hm1lt : 0 <= shr_m mrs1 < 2 ^ (k - e1)).
  { rewrite Hm1, He1. split.
    - apply Z.div_pos; [lia | apply pow2_pos; lia].
    - replace (k - (e + s1)) with (k - e - s1) by lia.
      apply div_pow2_lt; lia. }
  pose proof (round_nearest_even_ge (shr_m mrs1) (loc_of_shr_record mrs1)) as Hrge.
  pose proof (round_nearest_even_le (shr_m mrs1) (loc_of_shr_record mrs1)) as Hrle.
  set (r := round_nearest_even (shr_m mrs1) (loc_of_shr_record mrs1)) in *.
  assert (Hr : 0 <= r < 2 ^ (k + 1 - e1)).
  { split; [lia|].
    replace (k + 1 - e1) with (Z.succ (k - e1)) by lia.
    rewrite Z.pow_succ_r by lia. lia. }
  destruct (shr_fexp_spec r e1 loc_Exact (proj1 Hr)) as [Hm2 He2].
  set (dr := Zdigits2 r) in *.
  assert (Hdr : 0 <= dr <= k + 1 - e1).
  { split; [subst dr; destruct r; cbn; lia|]. apply Zdigits2_le; lia. }
  set (s2 := Z.max 0 (SpecFloat.fexp F64.prec F64.emax (dr + e1) - e1)) in *.
  assert (Hs2 : 0 <= s2 <= k + 1 - e1 /\ e1 + s2 <= F64.emax - F64.prec).
  { subst s2 s1. unfold SpecFloat.fexp, F64.emin, SpecFloat.emin, F64.prec,
      F64.emax in *. lia. }
  destruct (shr_fexp F64.prec F64.emax r e1 loc_Exact) as [mrs2 e2].
  cbn [fst snd] in Hm2, He2.
  assert (Hm2lt : 0 <= shr_m mrs2 < 2 ^ (k + 1 - e2)).
  { rewrite Hm2, He2. split.
    - apply Z.div_pos; [lia | apply pow2_pos; lia].
    - replace (k + 1 - (e1 + s2)) with (k + 1 - e1 - s2) by lia.
      apply div_pow2_lt; lia. }
  destruct (shr_m mrs2) as [|m2|m2] eqn:Hsm; [exact I| |lia].
  destruct (Z.leb_spec e2 (F64.emax - F64.prec)) as [_|Hbad]; [|lia].
  cbn. split; [lia|]. apply Hm2lt.
Qed.


Lemma F64_bounded_finite (lo k : Z) (x : F64.t) :
  F64_bounded lo k x -> F64_finite_nonneg x = true.
Proof. destruct x as [[]|[]| |[] m e]; simpl; intros H; now try destruct H. Qed.

Lemma shl_align_spec (m : positive) (e ez : Z) :
  let s := Z.max 0 (e - ez) in
  Zpos (fst (shl_align m e ez)) = Zpos m * 2 ^ s /\
  snd (shl_align m e ez) = e - s.
Proof.
  intros s. unfold shl_align. subst s.
  destruct (ez - e) as [|q|q] eqn:Hq; cbn [fst snd].
  - replace (Z.max 0 (e - ez)) with 0 by lia. split; lia.
  - replace (Z.max 0 (e - ez)) with 0 by lia. split; lia.
  - rewrite iter_xO_pow. replace (Z.max 0 (e - ez)) with (Zpos q) by lia.
    split; lia.
Qed.

(** [float64(n)] of a natural number below [2^k]. *)
Lemma of_Z_bounded (k n : Z) :
  0 <= n < 2 ^ k -> 0 <= k < F64.emax - F64.prec ->
  F64_bounded (- 52) (k + 1) (F64.of_Z n).
Proof.
  intros [Hn Hlt] Hk. destruct n as [|p|p]; [exact I| |lia].
  unfold F64.of_Z, binary_normalize, binary_round.
  pose proof (digits_lower p) as Hdl.
  assert (Hd : 1 <= Zpos (digits2_pos p) <= k).
  { split; [lia|]. apply (Zdigits2_le (Zpos p) k); lia. }
  set (ex := SpecFloat.fexp F64.prec F64.emax (Zpos (digits2_pos p) + 0)).
  assert (Hex : - 52 <= ex <= k).
  { subst ex. unfold SpecFloat.fexp, F64.emin, SpecFloat.emin, F64.prec,
      F64.emax in *. lia. }
  destruct (shl_align_spec p 0 ex) as [Hmz Hez].
  set (s := Z.max 0 (0 - ex)) in *.
  destruct (shl_align p 0 ex) as [mz ez]. cbn [fst snd] in Hmz, Hez.
  apply binary_round_aux_bounded.
  - split; [lia|]. rewrite Hmz, Hez.
    replace (k - (0 - s)) with (k + s) by lia.
    rewrite Z.pow_add_r by lia.
    apply Z.mul_lt_mono_pos_r; [apply pow2_pos; lia | exact Hlt].
  - lia.
  - unfold F64.emin, SpecFloat.emin, F64.prec, F64.emax in *. lia.
Qed.

(** The product of two bounded numbers. *)
Lemma mul_bounded (lox kx loy ky : Z) (x y : F64.t) :
  F64_bounded lox kx x -> F64_bounded loy ky y ->
  F64.emin <= kx + ky <= F64.emax - F64.prec ->
  F64_bounded (lox + loy) (kx + ky + 1) (F64.mul x y).
Proof.
  intros Hx Hy Hk.
  destruct x as [[]|[]| |[] mx ex]; try contradiction;
    destruct y as [[]|[]| |[] my ey]; try contradiction; try exact I.
  destruct Hx as [Hlx Hmx], Hy as [Hly Hmy].
  assert (Hex : 0 <= kx - ex).
  { destruct (Z.lt_ge_cases (kx - ex) 0) as [Hneg|]; [|lia].
    rewrite Z.pow_neg_r in Hmx by lia. lia. }
  assert (Hey : 0 <= ky - ey).
  { destruct (Z.lt_ge_cases (ky - ey) 0) as [Hneg|]; [|lia].
    rewrite Z.pow_neg_r in Hmy by lia. lia. }
  unfold F64.mul, SFmul. cbn [xorb].
  apply binary_round_aux_bounded; [|lia|exact Hk].
  split; [lia|].
  replace (kx + ky - (ex + ey)) with ((kx - ex) + (ky - ey)) by lia.
  rewrite Z.pow_add_r by lia. rewrite Pos2Z.inj_mul.
  apply Z.mul_lt_mono_nonneg; lia.
Qed.

(** The quotient of a bounded number by a positive finite number. *)
Lemma div_bounded (lox kx loy : Z) (x : F64.t) (my : positive) (ey : Z) :
  F64_bounded lox kx x -> loy <= ey ->
  F64.emin <= kx - loy <= F64.emax - F64.prec ->
  exists lo, F64_bounded lo (kx - loy + 1) (F64.div x (S754_finite false my ey)).
Proof.
  intros Hx Hly Hk.
  destruct x as [[]|[]| |[] mx ex]; try contradiction.
  { exists 0. exact I. }
  destruct Hx as [Hlx Hmx].
  assert (Hex : 0 <= kx - ex).
  { destruct (Z.lt_ge_cases (kx - ex) 0) as [Hneg|]; [|lia].
    rewrite Z.pow_neg_r in Hmx by lia. lia. }
  unfold F64.div, SFdiv, SFdiv_core_binary. cbn [xorb].
  set (e' := Z.min _ (ex - ey)).
  assert (He' : e' <= ex - ey) by (subst e'; lia).
  set (s := ex - ey - e').
  assert (Hs : 0 <= s) by (subst s; lia).
  set (m' := match s with Z0 => Zpos mx | Zpos _ => Z.shiftl (Zpos mx) s
             | Zneg _ => 0 end).
  assert (Hm' : m' = Zpos mx * 2 ^ s).
  { subst m'. destruct s as [|q|q]; [lia| |lia].
    now rewrite Z.shiftl_mul_pow2 by lia. }
  pose proof (Z_div_mod m' (Zpos my) eq_refl) as Hdm.
  destruct (Z.div_eucl m' (Zpos my)) as [q r]. destruct Hdm as [Hq Hr].
  exists e'. apply binary_round_aux_bounded; [|lia|exact Hk].
  assert (Hq0 : 0 <= q) by nia.
  split; [exact Hq0|].
  assert (Hle : q <= m') by nia.
  assert (Hlt : m' < 2 ^ (kx - ex + s)).
  { rewrite Hm', Z.pow_add_r by lia.
    apply Z.mul_lt_mono_pos_r; [apply pow2_pos; lia | exact Hmx]. }
  assert (Hmono : 2 ^ (kx - ex + s) <= 2 ^ (kx - loy - e')).
  { apply Z.pow_le_mono_r; [lia | subst s; lia]. }
  lia.
Qed.

End F64Bounds.

Lemma bounded_pos_finite (lo k : Z) (x : F64.t) :
  F64_bounded lo k x -> F64.is_pos x = true ->
  exists m e, x = S754_finite false m e /\ lo <= e.
Proof.
  destruct x as [[]|[]| |[] m e]; simpl; intros H Hp;
    try contradiction; try discriminate.
  exists m, e. split; [reflexivity | apply H].
Qed.

Lemma U64_wrap_range (z : Z) : 0 <= U64.wrap z < 2 ^ 64.
Proof. apply Z.mod_pos_bound. reflexivity. Qed.

Lemma hundred_bounded : F64_bounded (- 52) 8 F64.hundred.
Proof.
  apply (F64Bounds.of_Z_bounded 7); [split; [lia | reflexivity]|].
  unfold F64.emax, F64.prec. lia.
Qed.

(** X16. The memory percentage of a decoded snapshot is always a number:
    [+0] or a positive finite value, never NaN, an infinity or a negative
    value, whatever the usage and the limit are. *)
Theorem calculateMemPercentage_is_number (stats : StatsJSON) :
  wf_stats stats ->
  F64_finite_nonneg (calculateMemPercentage stats) = true.
Proof.
  intros Hwf. unfold calculateMemPercentage.
  destruct (Z.eqb_spec (Limit (MemoryStats_ stats)) 0) as [Hz|Hnz];
    [reflexivity|]. cbn [negb].
  pose proof (wf_usage _ Hwf) as Hu. pose proof (wf_limit _ Hwf) as Hl.
  unfold U64.in_range, U64.modulus in Hu, Hl.
  assert (Hk : 0 <= 64 < F64.emax - F64.prec)
    by (unfold F64.emax, F64.prec; lia).
  pose proof (F64Bounds.of_Z_bounded 64 _ Hu Hk) as Hbu.
  pose proof (F64Bounds.of_Z_bounded 64 _ Hl Hk) as Hbl.
  destruct (bounded_pos_finite _ _ _ Hbl) as (m & e & -> & He).
  { apply F64Facts.of_Z_pos. lia. }
  destruct (F64Bounds.div_bounded (- 52) (64 + 1) (- 52) _ m e Hbu He)
    as [lo Hq].
  { unfold F64.emin, SpecFloat.emin, F64.emax, F64.prec. lia. }
  eapply F64Bounds.F64_bounded_finite.
  apply (F64Bounds.mul_bounded _ _ _ _ _ _ Hq hundred_bounded).
  unfold F64.emin, SpecFloat.emin, F64.emax, F64.prec. lia.
Qed.

Lemma calculateMemPercentage_is_number_witness :
  F64_finite_nonneg (calculateMemPercentage example_stats) = true.
Proof.
  apply calculateMemPercentage_is_number. exact wf_example_stats.
Defined.

(** X17. The CPU percentage is always a number as well: [+0] or a positive
    finite value, for any counters at all, including counters that went
    backwards between the two readings.  The only assumption is that the
    number of per-core entries is a Go [int]. *)
Theorem calculateCPUPercent_is_number (stats : StatsJSON) :
  Z.of_nat (length (PercpuUsage (CPUUsage_ (CPUStats_ stats)))) < 2 ^ 63 ->
  F64_finite_nonneg (calculateCPUPercent stats) = true.
Proof.
  intros Hlen. unfold calculateCPUPercent, U64.sub.
  set (cpu := U64.wrap (TotalUsage _ - _)).
  set (sys := U64.wrap (SystemUsage _ - _)).
  assert (Hk : 0 <= 64 < F64.emax - F64.prec)
    by (unfold F64.emax, F64.prec; lia).
  pose proof (F64Bounds.of_Z_bounded 64 cpu (U64_wrap_range _) Hk) as Hbc.
  pose proof (F64Bounds.of_Z_bounded 64 sys (U64_wrap_range _) Hk) as Hbs.
  rewrite !F64Facts.ltb_zero_pos.
  destruct (F64.is_pos (F64.of_Z sys)) eqn:Hps; [|reflexivity].
  destruct (F64.is_pos (F64.of_Z cpu)) eqn:Hpc; [|reflexivity].
  cbn [andb].
  destruct (bounded_pos_finite _ _ _ Hbs Hps) as (m & e & -> & He).
  destruct (F64Bounds.div_bounded (- 52) (64 + 1) (- 52) _ m e Hbc He)
    as [lo Hq].
  { unfold F64.emin, SpecFloat.emin, F64.emax, F64.prec. lia. }
  assert (Hn : F64_bounded (- 52) (63 + 1)
                 (F64.of_Z (Z.of_nat (length (PercpuUsage (CPUUsage_ (CPUStats_ stats))))))).
  { apply F64Bounds.of_Z_bounded; [lia|]. unfold F64.emax, F64.prec. lia. }
  eapply F64Bounds.F64_bounded_finite.
  refine (F64Bounds.mul_bounded _ _ _ _ _ _
            (F64Bounds.mul_bounded _ _ _ _ _ _ Hq Hn _) hundred_bounded _);
    unfold F64.emin, SpecFloat.emin, F64.emax, F64.prec; lia.
Qed.

Lemma calculateCPUPercent_is_number_witness :
  Z.of_nat (length (PercpuUsage (CPUUsage_ (CPUStats_ backwards_stats)))) < 2 ^ 63 /\
  F64_finite_nonneg (calculateCPUPercent backwards_stats) = true.
Proof.
  assert (H : Z.of_nat (length (PercpuUsage (CPUUsage_ (CPUStats_ backwards_stats)))) < 2 ^ 63)
    by reflexivity.
  split; [exact H | apply calculateCPUPercent_is_number; exact H].
Defined.
